(** * Modbus RTU slave skeleton (src/Modbus/Modbus.cpp): shallow embedding

    The C translation unit is embedded function by function.  Machine
    integers are [Z] with the conversions of C written out ([u8], [u16]);
    arrays are lists read and written by index; the file-scope and
    function-static variables form the record [world], threaded through a
    small state monad whose second outcome, [OutOfBounds], stands for an
    access outside an array (undefined behaviour in C).  Every array access
    and every entry into [modbus_process_request] is recorded in a ghost
    trace, so that statements about which cells are touched can be made. *)

From stdpp Require Import base list list_numbers.
From Stdlib Require Import ZArith Lia.

Local Open Scope Z_scope.

(** ** Machine integers *)

Definition u8 (x : Z) : Z := x mod 256.
Definition u16 (x : Z) : Z := x mod 65536.

Definition is_u8 (x : Z) : Prop := 0 <= x < 256.
Definition is_u16 (x : Z) : Prop := 0 <= x < 65536.

#[export] Instance is_u8_dec x : Decision (is_u8 x).
Proof. unfold is_u8. apply _. Defined.
#[export] Instance is_u16_dec x : Decision (is_u16 x).
Proof. unfold is_u16. apply _. Defined.

(** A list whose cells all hold a [uint8_t] value. *)
Definition bytes (l : list Z) : Prop :=
  forallb (fun b => (0 <=? b) && (b <? 256)) l = true.

(** ** Constants of the source (lines 5-34) *)

Definition COIL_COUNT : Z := 100.
Definition DISCRETE_INPUT_COUNT : Z := 100.
Definition HOLDING_REGISTER_COUNT : Z := 100.
Definition INPUT_REGISTER_COUNT : Z := 100.

Definition FC_READ_COILS : Z := 0x01.
Definition FC_READ_DISCRETE_INPUTS : Z := 0x02.
Definition FC_READ_HOLDING_REGS : Z := 0x03.
Definition FC_READ_INPUT_REGS : Z := 0x04.
Definition FC_WRITE_SINGLE_COIL : Z := 0x05.
Definition FC_WRITE_SINGLE_REG : Z := 0x06.
Definition FC_WRITE_MULTIPLE_COILS : Z := 0x0F.
Definition FC_WRITE_MULTIPLE_REGS : Z := 0x10.

Definition ERROR_ILLEGAL_FUNCTION : Z := 0x01.
Definition ERROR_ILLEGAL_DATA_ADDRESS : Z := 0x02.
Definition ERROR_ILLEGAL_DATA_VALUE : Z := 0x03.
Definition ERROR_SLAVE_DEVICE_FAILURE : Z := 0x04.

(** ** Program state *)

(** The four file-scope arrays (lines 15-18). *)
Record store := Store {
  coils : list Z;
  discrete_inputs : list Z;
  holding_registers : list Z;
  input_registers : list Z
}.

(** The three function-static variables of [modbus_poll] (lines 132-134). *)
Record statics := Statics {
  rx_buffer : list Z;
  rx_length : Z;
  frame_received : bool
}.

(** Arrays that the two functions index. *)
Inductive region := HoldingRegisters | RxBuffer | Response.

(** An array argument: which array it is, and what it holds right now. *)
Definition array : Type := region * list Z.

(** Ghost events, in the order in which they happen. *)
Inductive event :=
| Peek (r : region) (i : Z)
| Poke (r : region) (i : Z)
| Enter (request_length : Z) (frame : list Z).

Record world := World {
  banks : store;
  poll : statics;
  uart_tx : list (list Z);
  trace : list event
}.

Definition with_poll (p : statics) (w : world) : world :=
  World (banks w) p (uart_tx w) (trace w).
Definition with_banks (s : store) (w : world) : world :=
  World s (poll w) (uart_tx w) (trace w).
Definition log (e : event) (w : world) : world :=
  World (banks w) (poll w) (uart_tx w) (trace w ++ [e]).
Definition transmit (f : list Z) (w : world) : world :=
  World (banks w) (poll w) (uart_tx w ++ [f]) (trace w).

(** Zero-initialised statics, as C guarantees at program start. *)
Definition power_on : world :=
  World (Store (replicate 13 0) (replicate 13 0)
               (replicate 100 0) (replicate 100 0))
        (Statics (replicate 256 0) 0 false) [] [].

(** ** The monad *)

Inductive outcome (A : Type) :=
| Ok (a : A) (w : world)
| OutOfBounds (w : world).
Arguments Ok {A} a w.
Arguments OutOfBounds {A} w.

Definition M (A : Type) : Type := world -> outcome A.

#[export] Instance M_ret : MRet M := fun A a w => Ok a w.
#[export] Instance M_bind : MBind M := fun A B k m w =>
  match m w with
  | Ok a w' => k a w'
  | OutOfBounds w' => OutOfBounds w'
  end.

Definition world_of {A} (o : outcome A) : world :=
  match o with Ok _ w => w | OutOfBounds w => w end.

Definition get : M world := fun w => Ok w w.
Definition modify (f : world -> world) : M unit := fun w => Ok tt (f w).
Definition fault {A} : M A := fun w => OutOfBounds w.

(** [a[i]] as an rvalue. *)
Definition peek (a : array) (i : Z) : M Z :=
  modify (log (Peek a.1 i)) ;;
  if 0 <=? i then
    match a.2 !! Z.to_nat i with
    | Some b => mret b
    | None => fault
    end
  else fault.

(** [a[i] = v]; the result is the array after the assignment. *)
Definition poke (a : array) (i v : Z) : M array :=
  modify (log (Poke a.1 i)) ;;
  if (0 <=? i) && (i <? Z.of_nat (length a.2)) then
    mret (a.1, <[Z.to_nat i := v]> a.2)
  else fault.

(** [extern void uart_send(uint8_t* data, uint16_t length)]: the first
    [length] cells of [data] go out on the wire as one transmission. *)
Definition uart_send (data : array) (length : Z) : M unit :=
  if length <=? Z.of_nat (List.length data.2) then
    modify (transmit (take (Z.to_nat length) data.2))
  else fault.

(** ** CRC16 (lines 41-56) *)

(** One round of the inner loop (lines 46-52). *)
Definition crc16_round (crc : Z) : Z :=
  if negb (Z.land crc 0x0001 =? 0) then
    let crc := u16 (Z.shiftr crc 1) in
    u16 (Z.lxor crc 0xA001)
  else
    u16 (Z.shiftr crc 1).

(** [for (uint8_t j = 0; j < 8; j++)]: [k] rounds remain. *)
Fixpoint crc16_rounds (k : nat) (crc : Z) : Z :=
  match k with
  | O => crc
  | S k' => crc16_rounds k' (crc16_round crc)
  end.

(** Body of the outer loop for one byte (lines 44-53). *)
Definition crc16_byte (crc b : Z) : Z :=
  crc16_rounds 8 (u16 (Z.lxor crc (u16 b))).

(** [for (uint16_t i = 0; i < length; i++)]: [k] is [length - i]. *)
Fixpoint crc16_loop (k : nat) (data : array) (i crc : Z) : M Z :=
  match k with
  | O => mret crc
  | S k' =>
      b ← peek data i;
      crc16_loop k' data (u16 (i + 1)) (crc16_byte crc b)
  end.

Definition modbus_crc16 (data : array) (length : Z) : M Z :=
  crc16_loop (Z.to_nat length) data 0 0xFFFF.

(** ** Request processing (lines 59-117) *)

Definition modbus_process_request (request : array) (request_length : Z) : M unit :=
  modify (log (Enter request_length (take (Z.to_nat request_length) request.2))) ;;
  if request_length <? 5 then mret tt else
  slave_addr ← peek request 0;
  function_code ← peek request 1;
  r2 ← peek request 2;
  r3 ← peek request 3;
  let address := u16 (Z.lor (Z.shiftl r2 8) r3) in
  r4 ← peek request 4;
  r5 ← peek request 5;
  let count := u16 (Z.lor (Z.shiftl r4 8) r5) in
  crc_calc ← modbus_crc16 request (u16 (request_length - 2));
  hi ← peek request (request_length - 1);
  lo ← peek request (request_length - 2);
  let crc_received := u16 (Z.lor (Z.shiftl hi 8) lo) in
  if negb (crc_calc =? crc_received) then mret tt else
  (* uint8_t response[256] is not initialised; no cell is read before it
     has been written, the zeros are never observed *)
  let response : array := (Response, replicate 256 0) in
  let response_length := 0 in
  if negb (slave_addr =? 0x01) then mret tt else
  '(response, response_length) ←
    (if function_code =? FC_READ_COILS then mret (response, response_length)
     else if function_code =? FC_READ_HOLDING_REGS then mret (response, response_length)
     else if function_code =? FC_WRITE_SINGLE_COIL then mret (response, response_length)
     else if function_code =? FC_WRITE_SINGLE_REG then mret (response, response_length)
     else
       response ← poke response 0 slave_addr;
       response ← poke response 1 (u8 (Z.lor function_code 0x80));
       response ← poke response 2 ERROR_ILLEGAL_FUNCTION;
       mret (response, 3));
  if 0 <? response_length then
    crc ← modbus_crc16 response response_length;
    response ← poke response response_length (u8 (Z.land crc 0xFF));
    let response_length := u16 (response_length + 1) in
    response ← poke response response_length (u8 (Z.shiftr crc 8));
    let response_length := u16 (response_length + 1) in
    uart_send response response_length
  else mret tt.

(** ** Initialisation (lines 120-128) *)

(** [for (int i = 0; i < HOLDING_REGISTER_COUNT; i++)]: [k] is
    [HOLDING_REGISTER_COUNT - i]. *)
Fixpoint modbus_init_loop (k : nat) (i : Z) : M unit :=
  match k with
  | O => mret tt
  | S k' =>
      w ← get;
      let s := banks w in
      regs ← poke (HoldingRegisters, holding_registers s) i 0;
      modify (with_banks (Store (coils s) (discrete_inputs s) regs.2 (input_registers s))) ;;
      modbus_init_loop k' (i + 1)
  end.

Definition modbus_init : M unit :=
  modbus_init_loop (Z.to_nat HOLDING_REGISTER_COUNT) 0.

(** ** Polling (lines 131-158) *)

(** Body of the [while] loop for one received byte (lines 139-149). *)
Definition modbus_poll_byte (byte : Z) : M unit :=
  w ← get;
  let s := poll w in
  buf ← poke (RxBuffer, rx_buffer s) (rx_length s) byte;
  let s := Statics buf.2 (u16 (rx_length s + 1)) (frame_received s) in
  let s := if 4 <? rx_length s then Statics (rx_buffer s) (rx_length s) true else s in
  let s := if 256 <=? rx_length s then Statics (rx_buffer s) 0 (frame_received s) else s in
  modify (with_poll s).

(** [while (uart_receive(&byte))]: [incoming] lists the bytes that
    [uart_receive] hands over, in order, before it answers [false]. *)
Fixpoint modbus_poll_loop (incoming : list Z) : M unit :=
  match incoming with
  | [] => mret tt
  | byte :: rest => modbus_poll_byte byte ;; modbus_poll_loop rest
  end.

Definition modbus_poll (incoming : list Z) : M unit :=
  modbus_poll_loop incoming ;;
  w ← get;
  if frame_received (poll w) then
    modbus_process_request (RxBuffer, rx_buffer (poll w)) (rx_length (poll w)) ;;
    modify (fun w => with_poll (Statics (rx_buffer (poll w)) 0 false) w)
  else mret tt.

(** The main loop that the comment of line 130 leaves to the application:
    one call of [modbus_poll] after the other.  [deliveries] lists, call by
    call, what the UART has ready; an empty delivery is a call that finds
    the line silent. *)
Fixpoint main_loop (deliveries : list (list Z)) : M unit :=
  match deliveries with
  | [] => mret tt
  | incoming :: rest => modbus_poll incoming ;; main_loop rest
  end.

(** * Notions of the specification *)

(** ** The CRC of spec 4.1

    Written from the spec's words "polynomial 0xA001, initial value 0xFFFF,
    LSB-first bit processing, no final XOR", to compare [modbus_crc16]
    with: a 16-bit shift register that starts at 0xFFFF and takes the
    message one bit at a time, each byte least significant bit first; a bit
    that differs from the bit leaving the register feeds the polynomial
    back.  The register is the result. *)

Definition crc16_shift_in (reg : Z) (bit : bool) : Z :=
  let reg' := Z.shiftr reg 1 in
  if xorb (Z.odd reg) bit then Z.lxor reg' 0xA001 else reg'.

Definition bits_lsb_first (k : nat) (b : Z) : list bool :=
  (fun j => Z.testbit b (Z.of_nat j)) <$> seq 0 k.

Definition crc16_reference (msg : list Z) : Z :=
  foldl crc16_shift_in 0xFFFF (msg ≫= bits_lsb_first 8).

(** ** Frames *)

(** Cell [i] of an array, 0 outside it. *)
Definition cell (l : list Z) (i : Z) : Z :=
  if 0 <=? i then default 0 (l !! Z.to_nat i) else 0.

(** The checksum rule of spec 4.1 for the frame held in the first
    [request_length] cells of [request]: the CRC of all bytes but the last
    two is the value whose low byte is the last cell but one and whose high
    byte is the last cell. *)
Definition checksum_ok (request : list Z) (request_length : Z) : Prop :=
  crc16_reference (take (Z.to_nat (request_length - 2)) request)
  = cell request (request_length - 2) + 256 * cell request (request_length - 1).

(** A call [modbus_process_request(request, request_length)] whose length
    is a [uint16_t] and whose pointer is good for the frame and for the six
    cells that lines 62-65 read. *)
Definition readable (request : list Z) (request_length : Z) : Prop :=
  is_u16 request_length /\
  request_length <= Z.of_nat (length request) /\
  6 <= Z.of_nat (length request).

#[export] Instance checksum_ok_dec request n : Decision (checksum_ok request n).
Proof. unfold checksum_ok. apply _. Defined.
#[export] Instance readable_dec request n : Decision (readable request n).
Proof. unfold readable. apply _. Defined.

(** The 16-bit field that starts at cell [i], high byte first (spec 6). *)
Definition word_at (request : list Z) (i : Z) : Z :=
  256 * cell request i + cell request (i + 1).

(** The eight function codes the source names (lines 21-28). *)
Definition standard_function (function_code : Z) : bool :=
  existsb (Z.eqb function_code)
    [FC_READ_COILS; FC_READ_DISCRETE_INPUTS; FC_READ_HOLDING_REGS;
     FC_READ_INPUT_REGS; FC_WRITE_SINGLE_COIL; FC_WRITE_SINGLE_REG;
     FC_WRITE_MULTIPLE_COILS; FC_WRITE_MULTIPLE_REGS].

(** Those of them that ask for a write. *)
Definition write_function (function_code : Z) : bool :=
  existsb (Z.eqb function_code)
    [FC_WRITE_SINGLE_COIL; FC_WRITE_SINGLE_REG;
     FC_WRITE_MULTIPLE_COILS; FC_WRITE_MULTIPLE_REGS].

(** The effect that spec 4.5 gives Write Single Register,
    [store.write(holding, addr, [value])]: cell [addr] of the holding bank
    becomes [value].  Written from the spec's words, to compare the source
    with; the source has no such operation. *)
Definition spec_write_single_register (addr value : Z) (s : store) : store :=
  Store (coils s) (discrete_inputs s)
        (<[Z.to_nat addr := value]> (holding_registers s))
        (input_registers s).

(** * Vocabulary for the statements *)

(** Several events at once. *)
Definition logs (es : list event) (w : world) : world :=
  World (banks w) (poll w) (uart_tx w) (trace w ++ es).

(** What [modbus_crc16] leaves in [crc] after the bytes of [l]. *)
Definition crc16_bytes (l : list Z) : Z := foldl crc16_byte 0xFFFF l.

(** Does the [switch] of line 80 have a [case] label for this code? *)
Definition has_case (function_code : Z) : bool :=
  (function_code =? FC_READ_COILS) || (function_code =? FC_READ_HOLDING_REGS)
  || (function_code =? FC_WRITE_SINGLE_COIL) || (function_code =? FC_WRITE_SINGLE_REG).

(** The check of line 70, on the cells of the caller's array. *)
Definition crc_matches (request : list Z) (request_length : Z) : bool :=
  crc16_bytes (take (Z.to_nat (request_length - 2)) request)
  =? u16 (Z.lor (Z.shiftl (cell request (request_length - 1)) 8)
                (cell request (request_length - 2))).

(** Events up to and including the check of line 70. *)
Definition request_events (r : region) (request : list Z) (n : Z) : list event :=
  Enter n (take (Z.to_nat n) request)
  :: (Peek r <$> [0; 1; 2; 3; 4; 5])
  ++ (Peek r <$> seqZ 0 (n - 2))
  ++ [Peek r (n - 1); Peek r (n - 2)].

(** Events of lines 101-112. *)
Definition reply_events : list event :=
  [Poke Response 0; Poke Response 1; Poke Response 2;
   Peek Response 0; Peek Response 1; Peek Response 2;
   Poke Response 3; Poke Response 4].

(** The five cells handed to [uart_send] by the [default] branch. *)
Definition exception_frame (station function_code code : Z) : list Z :=
  let head := [station; u8 (Z.lor function_code 0x80); code] in
  let crc := crc16_bytes head in
  head ++ [u8 (Z.land crc 0xFF); u8 (Z.shiftr crc 8)].

(** Is the call answered?  Lines 60, 70, 77 and the [switch]. *)
Definition replies (request : list Z) (n : Z) : bool :=
  (5 <=? n) && crc_matches request n && (cell request 0 =? 0x01)
  && negb (has_case (cell request 1)).

(** The frames handed to [modbus_process_request], oldest first. *)
Definition frames_handed (t : list event) : list (Z * list Z) :=
  omap (fun e => match e with Enter n f => Some (n, f) | _ => None end) t.

(** A computation that leaves the data store alone, whether it returns or
    runs off an array. *)
Definition keeps_banks {A} (m : M A) : Prop :=
  forall w, banks (world_of (m w)) = banks w.

(** Between calls of [modbus_poll]: the buffer has its 256 cells and the
    fill count is a valid index into it. *)
Definition rx_invariant (w : world) : Prop :=
  length (rx_buffer (poll w)) = 256%nat /\ 0 <= rx_length (poll w) <= 255.

#[export] Instance rx_invariant_dec w : Decision (rx_invariant w).
Proof. unfold rx_invariant. apply _. Defined.

(** An event that stays inside the 256 cells of [rx_buffer] and hands over
    at most 255 bytes. *)
Definition rx_event_ok (e : event) : Prop :=
  match e with
  | Peek RxBuffer i | Poke RxBuffer i => 0 <= i < 256
  | Enter n _ => 0 <= n <= 255
  | _ => True
  end.

(** A read of [request] that stays inside the frame of [n] bytes. *)
Definition inside_frame (r : region) (n : Z) (e : event) : Prop :=
  match e with
  | Peek r' i => r' = r -> 0 <= i < n
  | _ => True
  end.

(** Between calls of [modbus_poll], seen more closely: the flag is clear
    and at most four bytes wait in the buffer. *)
Definition pending_invariant (w : world) : Prop :=
  rx_invariant w /\ frame_received (poll w) = false /\ rx_length (poll w) <= 4.

(** Inside the [while] loop: either the flag is already set or at most
    four bytes have been counted. *)
Definition loop_invariant (w : world) : Prop :=
  rx_invariant w /\ (frame_received (poll w) = true \/ rx_length (poll w) <= 4).

(** A frame as the [default] branch builds it (lines 101-112). *)
Definition is_exception_reply (f : list Z) : Prop :=
  exists fc, has_case fc = false
             /\ f = exception_frame 0x01 fc ERROR_ILLEGAL_FUNCTION.

(** The statics after one turn of the [while] loop (lines 139-149), when
    the fill count was [m]. *)
Definition statics_after_byte (s : statics) (byte : Z) : statics :=
  let m := rx_length s in
  Statics (<[Z.to_nat m := byte]> (rx_buffer s))
          (if 256 <=? m + 1 then 0 else m + 1)
          (frame_received s || (4 <? m + 1)).

(** * Lemmas *)

(** ** Stepping through the monad *)

Lemma log_logs e w : log e w = logs [e] w.
Proof. reflexivity. Qed.

Lemma logs_logs es1 es2 w : logs es2 (logs es1 w) = logs (es1 ++ es2) w.
Proof. unfold logs; simpl. by rewrite app_assoc. Qed.

Lemma logs_nil w : logs [] w = w.
Proof. destruct w; unfold logs; simpl. by rewrite app_nil_r. Qed.

Lemma bind_Ok {A B} (m : M A) (k : A -> M B) w a w' :
  m w = Ok a w' -> (m ≫= k) w = k a w'.
Proof. unfold mbind, M_bind. by intros ->. Qed.

Lemma peek_cell r l i w :
  0 <= i < Z.of_nat (length l) ->
  peek (r, l) i w = Ok (cell l i) (logs [Peek r i] w).
Proof.
  intros Hi. destruct (lookup_lt_is_Some_2 l (Z.to_nat i)) as [b Hb]; [lia|].
  unfold peek, cell, mbind, M_bind, modify; simpl.
  destruct (Z.leb_spec 0 i); [|lia]. by rewrite Hb.
Qed.

Lemma poke_Ok r l i v w :
  0 <= i < Z.of_nat (length l) ->
  poke (r, l) i v w = Ok (r, <[Z.to_nat i := v]> l) (logs [Poke r i] w).
Proof.
  intros Hi. unfold poke, mbind, M_bind, modify; simpl.
  destruct (Z.leb_spec 0 i); [|lia].
  destruct (Z.ltb_spec i (Z.of_nat (length l))); [done|lia].
Qed.

(** ** Machine integers and bytes *)

Lemma u16_small x : is_u16 x -> u16 x = x.
Proof. intros H. apply Z.mod_small, H. Qed.

Lemma u8_small x : is_u8 x -> u8 x = x.
Proof. intros H. apply Z.mod_small, H. Qed.

Lemma is_u8_u16 x : is_u8 x -> is_u16 x.
Proof. unfold is_u8, is_u16. lia. Qed.

Lemma below_pow2_bits n x :
  0 <= n -> 0 <= x ->
  (x < 2 ^ n <-> forall m, n <= m -> Z.testbit x m = false).
Proof.
  intros Hn Hx. split.
  - intros Hlt m Hm. destruct (Z.eq_dec x 0) as [->|Hne]; [apply Z.bits_0|].
    apply Z.bits_above_log2; [done|].
    assert (Z.log2 x < n) by (apply Z.log2_lt_pow2; lia). lia.
  - intros Hb. destruct (Z.eq_dec x 0) as [->|Hne].
    + apply Z.pow_pos_nonneg; lia.
    + apply Z.log2_lt_pow2; [lia|].
      destruct (Z.lt_ge_cases (Z.log2 x) n) as [|Hge]; [done|].
      specialize (Hb _ Hge). rewrite Z.bit_log2 in Hb by lia. done.
Qed.

Lemma high_bits_false n x m :
  0 <= n -> 0 <= x < 2 ^ n -> n <= m -> Z.testbit x m = false.
Proof. intros Hn [H0 H1]. revert m. by apply below_pow2_bits. Qed.

Lemma is_u16_bits x :
  is_u16 x <-> 0 <= x /\ forall m, 16 <= m -> Z.testbit x m = false.
Proof.
  unfold is_u16. change 65536 with (2 ^ 16). split.
  - intros [H0 H1]. split; [done|]. by apply below_pow2_bits.
  - intros [H0 H1]. split; [done|]. by apply below_pow2_bits.
Qed.

Lemma is_u16_lxor a b : is_u16 a -> is_u16 b -> is_u16 (Z.lxor a b).
Proof.
  rewrite !is_u16_bits. intros [Ha Ha'] [Hb Hb']. split.
  - by apply Z.lxor_nonneg.
  - intros m Hm. by rewrite Z.lxor_spec, Ha', Hb'.
Qed.

Lemma is_u16_shiftr a : is_u16 a -> is_u16 (Z.shiftr a 1).
Proof.
  rewrite !is_u16_bits. intros [Ha Ha']. split.
  - by apply Z.shiftr_nonneg.
  - intros m Hm. rewrite Z.shiftr_spec by lia. apply Ha'. lia.
Qed.

Lemma is_u8_lor_0x80 fc : is_u8 fc -> is_u8 (Z.lor fc 0x80).
Proof.
  unfold is_u8. intros Hf. split; [apply Z.lor_nonneg; lia|].
  change 256 with (2 ^ 8).
  apply (below_pow2_bits 8); [lia|apply Z.lor_nonneg; lia|].
  intros m Hm. rewrite Z.lor_spec.
  by rewrite (high_bits_false 8 fc m), (high_bits_false 8 128 m) by lia.
Qed.

(** [(hi << 8) | lo] puts [lo] below [hi]. *)
Lemma lor_shiftl_bytes hi lo :
  is_u8 lo -> Z.lor (Z.shiftl hi 8) lo = lo + 256 * hi.
Proof.
  intros Hlo.
  assert (Z.land (Z.shiftl hi 8) lo = 0) as Hland.
  { apply Z.bits_inj'. intros m Hm. rewrite Z.land_spec, Z.bits_0.
    destruct (Z.lt_ge_cases m 8).
    - by rewrite Z.shiftl_spec_low.
    - rewrite (high_bits_false 8 lo m) by (done || lia).
      apply andb_false_r. }
  rewrite <- Z.lxor_lor, <- Z.add_nocarry_lxor by done.
  rewrite Z.shiftl_mul_pow2 by lia. lia.
Qed.

Lemma bytes_Forall l : bytes l <-> Forall is_u8 l.
Proof.
  unfold bytes. induction l as [|b l IH]; simpl.
  - split; [constructor|done].
  - rewrite Forall_cons, <- IH, !andb_true_iff, Z.leb_le, Z.ltb_lt.
    unfold is_u8. tauto.
Qed.

Lemma bytes_take n l : bytes l -> bytes (take n l).
Proof. rewrite !bytes_Forall. apply Forall_take. Qed.

Lemma bytes_cell l i : bytes l -> is_u8 (cell l i).
Proof.
  rewrite bytes_Forall. intros Hl. unfold cell.
  destruct (0 <=? i); [|unfold is_u8; lia].
  destruct (l !! Z.to_nat i) as [b|] eqn:Hb; simpl.
  - by eapply Forall_lookup_1.
  - unfold is_u8. lia.
Qed.

(** ** The source's CRC is the specification's CRC *)

Lemma is_u16_shift_in c b : is_u16 c -> is_u16 (crc16_shift_in c b).
Proof.
  intros Hc. unfold crc16_shift_in.
  destruct (xorb _ _).
  - apply is_u16_lxor; [by apply is_u16_shiftr|unfold is_u16; lia].
  - by apply is_u16_shiftr.
Qed.

Lemma crc16_round_shift_in c :
  is_u16 c -> crc16_round c = crc16_shift_in c false.
Proof.
  intros Hc. unfold crc16_round, crc16_shift_in.
  rewrite xorb_false_r.
  change 1 with (Z.ones 1) at 1. rewrite Z.land_ones by lia.
  change (2 ^ 1) with 2. rewrite Zmod_odd.
  pose proof (is_u16_shiftr c Hc) as Hs.
  destruct (Z.odd c); simpl.
  - rewrite (u16_small (Z.shiftr c 1)) by done.
    apply u16_small, is_u16_lxor; [done|unfold is_u16; lia].
  - by apply u16_small.
Qed.

(** Bits still waiting in the low end of the register can be taken out and
    fed in one by one instead. *)
Lemma crc16_shift_in_lxor c b :
  crc16_shift_in (Z.lxor c b) false
  = Z.lxor (crc16_shift_in c (Z.odd b)) (Z.shiftr b 1).
Proof.
  unfold crc16_shift_in. rewrite xorb_false_r.
  rewrite <- !Z.bit0_odd, Z.lxor_spec, Z.shiftr_lxor.
  destruct (xorb _ _); [|done].
  rewrite !Z.lxor_assoc. f_equal. apply Z.lxor_comm.
Qed.

Lemma bits_lsb_first_S k b :
  bits_lsb_first (S k) b = Z.odd b :: bits_lsb_first k (Z.shiftr b 1).
Proof.
  unfold bits_lsb_first. cbn [seq fmap list_fmap]. f_equal.
  rewrite <- fmap_S_seq, <- list_fmap_compose.
  apply list_fmap_ext. intros _ j _. unfold compose.
  rewrite Z.shiftr_spec by lia. f_equal. lia.
Qed.

Lemma crc16_rounds_bits k c b :
  is_u16 c -> is_u16 b -> 0 <= b < 2 ^ Z.of_nat k ->
  crc16_rounds k (Z.lxor c b) = foldl crc16_shift_in c (bits_lsb_first k b).
Proof.
  revert c b. induction k as [|k IH]; intros c b Hc Hb Hk.
  - simpl in *. assert (b = 0) as -> by lia. by rewrite Z.lxor_0_r.
  - rewrite bits_lsb_first_S. simpl.
    rewrite crc16_round_shift_in by (by apply is_u16_lxor).
    rewrite crc16_shift_in_lxor. apply IH.
    + by apply is_u16_shift_in.
    + by apply is_u16_shiftr.
    + rewrite Z.shiftr_div_pow2 by lia. change (2 ^ 1) with 2.
      rewrite Nat2Z.inj_succ, Z.pow_succ_r in Hk by lia.
      split; [apply Z.div_pos; lia | apply Z.div_lt_upper_bound; lia].
Qed.

Lemma crc16_byte_bits c b :
  is_u16 c -> is_u8 b ->
  crc16_byte c b = foldl crc16_shift_in c (bits_lsb_first 8 b).
Proof.
  intros Hc Hb. unfold crc16_byte.
  rewrite (u16_small b) by (by apply is_u8_u16).
  rewrite u16_small by (apply is_u16_lxor; [done|by apply is_u8_u16]).
  apply crc16_rounds_bits; [done|by apply is_u8_u16|apply Hb].
Qed.

Lemma is_u16_foldl_shift_in bits c :
  is_u16 c -> is_u16 (foldl crc16_shift_in c bits).
Proof.
  revert c. induction bits as [|b bits IH]; intros c Hc; simpl; [done|].
  by apply IH, is_u16_shift_in.
Qed.

Lemma foldl_crc16_byte_reference l c :
  is_u16 c -> bytes l ->
  foldl crc16_byte c l = foldl crc16_shift_in c (l ≫= bits_lsb_first 8).
Proof.
  rewrite bytes_Forall. intros Hc Hl. revert c Hc.
  induction Hl as [|b l Hb Hl IH]; intros c Hc; [done|].
  cbn [foldl]. rewrite bind_cons, foldl_app.
  rewrite crc16_byte_bits by done.
  apply IH, is_u16_foldl_shift_in, Hc.
Qed.

Lemma crc16_bytes_reference l : bytes l -> crc16_bytes l = crc16_reference l.
Proof.
  intros Hl. apply foldl_crc16_byte_reference; [unfold is_u16; lia|done].
Qed.

Lemma is_u16_crc16_reference l : is_u16 (crc16_reference l).
Proof. apply is_u16_foldl_shift_in. unfold is_u16; lia. Qed.

(** ** Running [modbus_crc16] *)

Lemma crc16_loop_run k r l i crc w :
  0 <= i ->
  i + Z.of_nat k <= Z.of_nat (length l) ->
  i + Z.of_nat k <= 65535 ->
  crc16_loop k (r, l) i crc w
  = Ok (foldl crc16_byte crc (take k (drop (Z.to_nat i) l)))
       (logs (Peek r <$> seqZ i (Z.of_nat k)) w).
Proof.
  revert i crc w. induction k as [|k IH]; intros i crc w Hi Hlen Hmax.
  - simpl. by rewrite logs_nil.
  - cbn [crc16_loop].
    erewrite bind_Ok by (apply peek_cell; lia).
    rewrite u16_small by (unfold is_u16; lia).
    rewrite IH by lia. rewrite logs_logs.
    destruct (lookup_lt_is_Some_2 l (Z.to_nat i)) as [b Hb]; [lia|].
    rewrite (drop_S _ _ _ Hb). unfold cell. rewrite Hb.
    destruct (Z.leb_spec 0 i); [|lia].
    replace (Z.to_nat (i + 1)) with (S (Z.to_nat i)) by lia.
    rewrite (seqZ_cons i) by lia.
    replace (Z.pred (Z.of_nat (S k))) with (Z.of_nat k) by lia.
    reflexivity.
Qed.

Lemma modbus_crc16_run r l n w :
  0 <= n <= Z.of_nat (length l) -> n <= 65535 ->
  modbus_crc16 (r, l) n w
  = Ok (crc16_bytes (take (Z.to_nat n) l)) (logs (Peek r <$> seqZ 0 n) w).
Proof.
  intros Hn Hmax. unfold modbus_crc16.
  rewrite crc16_loop_run by lia. by rewrite Z2Nat.id by lia.
Qed.

(** ** Running [modbus_process_request] *)

Lemma process_short r request n w :
  n < 5 ->
  modbus_process_request (r, request) n w
  = Ok tt (logs [Enter n (take (Z.to_nat n) request)] w).
Proof.
  intros Hn. unfold modbus_process_request.
  erewrite bind_Ok by reflexivity.
  destruct (Z.ltb_spec n 5); [|lia]. reflexivity.
Qed.

Ltac in_array :=
  rewrite ?length_insert, ?length_replicate; try lia;
  vm_compute; intuition congruence.

Section GoodPointer.

Context (r : region) (request : list Z) (n : Z).
Hypothesis Hreadable : readable request n.

(** The whole function for a frame that passes line 60. *)
Lemma process_run w :
  5 <= n ->
  modbus_process_request (r, request) n w
  = Ok tt
      (let w1 := logs (request_events r request n) w in
       if crc_matches request n then
         if cell request 0 =? 0x01 then
           if has_case (cell request 1) then w1
           else transmit (exception_frame (cell request 0) (cell request 1)
                                          ERROR_ILLEGAL_FUNCTION)
                         (logs reply_events w1)
         else w1
       else w1).
Proof.
  destruct Hreadable as (Hu & Hlen & Hsix). intros Hn. unfold is_u16 in Hu.
  unfold modbus_process_request.
  erewrite bind_Ok by reflexivity.
  destruct (Z.ltb_spec n 5); [lia|].
  do 6 (erewrite bind_Ok by (apply peek_cell; lia)).
  cbv zeta.
  rewrite u16_small by (unfold is_u16; lia).
  erewrite bind_Ok by (apply modbus_crc16_run; simpl; lia).
  do 2 (erewrite bind_Ok by (apply peek_cell; lia)).
  rewrite !log_logs, !logs_logs.
  change (crc16_bytes _ =? _) with (crc_matches request n).
  change ([Enter n _] ++ _) with (request_events r request n).
  destruct (crc_matches request n); [|done]. cbn [negb].
  destruct (cell request 0 =? 1); [|done]. cbn [negb].
  unfold has_case.
  destruct (cell request 1 =? FC_READ_COILS); [done|].
  destruct (cell request 1 =? FC_READ_HOLDING_REGS); [done|].
  destruct (cell request 1 =? FC_WRITE_SINGLE_COIL); [done|].
  destruct (cell request 1 =? FC_WRITE_SINGLE_REG); [done|].
  cbn [orb].
  erewrite bind_Ok; cycle 1.
  { do 3 (erewrite bind_Ok by (apply poke_Ok; in_array)). reflexivity. }
  cbv beta iota.
  change (0 <? 3) with true. cbv iota.
  erewrite bind_Ok by (apply modbus_crc16_run; in_array).
  do 2 (erewrite bind_Ok by (apply poke_Ok; in_array)).
  rewrite !logs_logs.
  reflexivity.
Qed.

(** What a call with a good pointer does, in one statement: it returns, it
    leaves the banks and the statics of [modbus_poll] alone, and it
    transmits either nothing or the exception frame of the [default]
    branch. *)
Lemma process_outcome w :
  exists w',
    modbus_process_request (r, request) n w = Ok tt w'
    /\ banks w' = banks w /\ poll w' = poll w
    /\ uart_tx w' = uart_tx w ++
         (if replies request n
          then [exception_frame (cell request 0) (cell request 1) ERROR_ILLEGAL_FUNCTION]
          else []).
Proof.
  unfold replies. destruct (Z.leb_spec 5 n) as [Hn|Hn].
  - rewrite process_run by done. eexists. split; [done|]. cbv zeta.
    destruct (crc_matches request n), (cell request 0 =? 1),
      (has_case (cell request 1)); simpl; by rewrite ?app_nil_r.
  - rewrite process_short by done. eexists. split; [done|].
    simpl. by rewrite app_nil_r.
Qed.

(** What such a call reads and writes: the header, the frame less its
    checksum, the checksum, and the reply if there is one. *)
Lemma process_trace w :
  5 <= n ->
  exists w' tail,
    modbus_process_request (r, request) n w = Ok tt w'
    /\ trace w' = trace w ++ request_events r request n ++ tail
    /\ (tail = [] \/ tail = reply_events).
Proof.
  intros Hn. rewrite process_run by done. cbv zeta.
  destruct (crc_matches request n), (cell request 0 =? 1),
    (has_case (cell request 1));
    eexists _, _; (split; [reflexivity|]); simpl;
    first [ split; [by rewrite app_nil_r|by left]
          | split; [by rewrite <- app_assoc|by right] ].
Qed.

End GoodPointer.

(** From six bytes on, every read of [request] stays inside the frame. *)
Lemma request_events_inside r request n :
  6 <= n -> Forall (inside_frame r n) (request_events r request n).
Proof.
  intros Hn. unfold request_events.
  apply Forall_cons. split; [done|].
  rewrite !Forall_app, !Forall_fmap. split; [|split].
  - repeat (apply Forall_cons; split; [simpl; lia|]). apply Forall_nil_2.
  - apply Forall_seqZ. intros i Hi. simpl. lia.
  - repeat (apply Forall_cons; split; [simpl; lia|]). apply Forall_nil_2.
Qed.

(** At five bytes, one read does not. *)
Lemma request_events_outside r request :
  Peek r 5 ∈ request_events r request 5 /\ ~ inside_frame r 5 (Peek r 5).
Proof.
  split.
  - unfold request_events. do 6 apply list_elem_of_further. apply list_elem_of_here.
  - simpl. intros H. specialize (H eq_refl). lia.
Qed.

(** ** The check of line 70 is the checksum rule of the specification *)

Lemma crc_matches_checksum_ok request n :
  bytes request ->
  (crc_matches request n = true <-> checksum_ok request n).
Proof.
  intros Hb. unfold crc_matches, checksum_ok.
  pose proof (bytes_cell request (n - 1) Hb) as Hhi.
  pose proof (bytes_cell request (n - 2) Hb) as Hlo.
  rewrite crc16_bytes_reference by (by apply bytes_take).
  rewrite lor_shiftl_bytes by done.
  rewrite u16_small by (unfold is_u8, is_u16 in *; lia).
  apply Z.eqb_eq.
Qed.

(** The reply of the [default] branch, read with the specification's CRC. *)
Lemma exception_frame_reference station fc code :
  is_u8 station -> is_u8 fc -> is_u8 code ->
  exception_frame station fc code
  = let head := [station; Z.lor fc 0x80; code] in
    let crc := crc16_reference head in
    head ++ [crc mod 256; crc / 256].
Proof.
  intros Hs Hf Hc. unfold exception_frame. cbv zeta.
  pose proof (is_u8_lor_0x80 fc Hf) as Hor.
  rewrite (u8_small (Z.lor fc 128)) by done.
  rewrite crc16_bytes_reference
    by (apply bytes_Forall; repeat (apply Forall_cons; split; [done|]); apply Forall_nil_2).
  pose proof (is_u16_crc16_reference [station; Z.lor fc 128; code]) as Hcrc.
  set (crc := crc16_reference _) in *. unfold is_u16 in Hcrc.
  do 3 f_equal.
  - change 255 with (Z.ones 8). rewrite Z.land_ones by lia.
    unfold u8. change (2 ^ 8) with 256. apply Z.mod_mod. lia.
  - f_equal. rewrite Z.shiftr_div_pow2 by lia. change (2 ^ 8) with 256.
    apply u8_small. unfold is_u8.
    split; [apply Z.div_pos; lia | apply Z.div_lt_upper_bound; lia].
Qed.

Lemma has_case_standard fc : has_case fc = true -> standard_function fc = true.
Proof.
  unfold has_case. rewrite !orb_true_iff, !Z.eqb_eq.
  intros [[[->| ->]| ->]| ->]; reflexivity.
Qed.

(** ** Computations that leave the data store alone *)

Lemma keeps_ret {A} (a : A) : keeps_banks (mret a).
Proof. by intros w. Qed.

Lemma keeps_fault {A} : keeps_banks (@fault A).
Proof. by intros w. Qed.

Lemma keeps_bind {A B} (m : M A) (k : A -> M B) :
  keeps_banks m -> (forall a, keeps_banks (k a)) -> keeps_banks (m ≫= k).
Proof.
  intros Hm Hk w. unfold mbind, M_bind. specialize (Hm w).
  destruct (m w) as [a w1|w1]; simpl in *; [|done].
  by rewrite Hk.
Qed.

Lemma keeps_modify f :
  (forall w, banks (f w) = banks w) -> keeps_banks (modify f).
Proof. intros Hf w. apply Hf. Qed.

Lemma keeps_peek a i : keeps_banks (peek a i).
Proof.
  unfold peek. apply keeps_bind; [by apply keeps_modify|]. intros _.
  destruct (0 <=? i); [|apply keeps_fault].
  destruct (a.2 !! Z.to_nat i); [apply keeps_ret|apply keeps_fault].
Qed.

Lemma keeps_poke a i v : keeps_banks (poke a i v).
Proof.
  unfold poke. apply keeps_bind; [by apply keeps_modify|]. intros _.
  destruct (_ && _); [apply keeps_ret|apply keeps_fault].
Qed.

Lemma keeps_uart_send a n : keeps_banks (uart_send a n).
Proof.
  unfold uart_send. destruct (_ <=? _); [by apply keeps_modify|apply keeps_fault].
Qed.

Lemma keeps_crc16_loop k a i crc : keeps_banks (crc16_loop k a i crc).
Proof.
  revert i crc. induction k as [|k IH]; intros i crc; simpl.
  - apply keeps_ret.
  - apply keeps_bind; [apply keeps_peek|]. intros b. apply IH.
Qed.

Lemma keeps_modbus_crc16 a n : keeps_banks (modbus_crc16 a n).
Proof. apply keeps_crc16_loop. Qed.

Create HintDb keeps.
#[local] Hint Resolve keeps_ret keeps_fault keeps_peek keeps_poke
  keeps_uart_send keeps_modbus_crc16 : keeps.

Ltac keeps_step :=
  match goal with
  | |- keeps_banks (if ?c then _ else _) => destruct c
  | |- keeps_banks (_ ≫= _) => apply keeps_bind; [|intros ?]
  | |- keeps_banks (let '(_, _) := ?p in _) => destruct p
  | |- keeps_banks (modify _) => by apply keeps_modify
  | |- keeps_banks _ => solve [auto with keeps]
  end.

(** ** [modbus_init] clears the holding registers *)

Lemma modbus_init_loop_run k done todo w :
  holding_registers (banks w) = done ++ todo ->
  length todo = k ->
  exists w',
    modbus_init_loop k (Z.of_nat (length done)) w = Ok tt w'
    /\ holding_registers (banks w') = done ++ replicate k 0
    /\ coils (banks w') = coils (banks w)
    /\ discrete_inputs (banks w') = discrete_inputs (banks w)
    /\ input_registers (banks w') = input_registers (banks w)
    /\ poll w' = poll w /\ uart_tx w' = uart_tx w.
Proof.
  revert done todo w. induction k as [|k IH]; intros done todo w Hregs Hk.
  - destruct todo; [|done]. exists w. simpl. by repeat split.
  - destruct todo as [|t todo]; [done|]. injection Hk as Hk.
    cbn [modbus_init_loop].
    erewrite bind_Ok by reflexivity. cbv zeta.
    erewrite bind_Ok
      by (apply poke_Ok; rewrite Hregs, length_app; simpl; lia).
    erewrite bind_Ok by reflexivity.
    rewrite Hregs, Nat2Z.id.
    replace (<[length done := 0]> (done ++ t :: todo)) with ((done ++ [0]) ++ todo)
      by (rewrite insert_app_r_alt, Nat.sub_diag, <- app_assoc by lia; done).
    replace (Z.of_nat (length done) + 1) with (Z.of_nat (length (done ++ [0])))
      by (rewrite length_app; simpl; lia).
    match goal with
    | |- context [modbus_init_loop k _ ?w1] =>
        destruct (IH (done ++ [0]) todo w1) as (w' & Hrun & Hr & Hrest);
        [reflexivity|done|]
    end.
    exists w'. split; [exact Hrun|]. split; [|exact Hrest].
    rewrite Hr, <- app_assoc. done.
Qed.

Lemma modbus_init_run w :
  Z.of_nat (length (holding_registers (banks w))) = HOLDING_REGISTER_COUNT ->
  exists w',
    modbus_init w = Ok tt w'
    /\ holding_registers (banks w') = replicate 100 0
    /\ coils (banks w') = coils (banks w)
    /\ discrete_inputs (banks w') = discrete_inputs (banks w)
    /\ input_registers (banks w') = input_registers (banks w)
    /\ poll w' = poll w /\ uart_tx w' = uart_tx w.
Proof.
  intros Hlen. unfold HOLDING_REGISTER_COUNT in Hlen.
  apply (modbus_init_loop_run 100 [] (holding_registers (banks w)) w); [done|lia].
Qed.

(** ** The receive buffer of [modbus_poll] *)

Lemma rx_invariant_power_on : rx_invariant power_on.
Proof. split; [reflexivity|simpl; lia]. Qed.

Lemma request_events_ok request n :
  5 <= n <= 255 -> Forall rx_event_ok (request_events RxBuffer request n).
Proof.
  intros Hn. unfold request_events.
  apply Forall_cons. split; [simpl; lia|].
  rewrite !Forall_app, !Forall_fmap. split; [|split].
  - repeat (apply Forall_cons; split; [simpl; lia|]). apply Forall_nil_2.
  - apply Forall_seqZ. intros i Hi. simpl. lia.
  - repeat (apply Forall_cons; split; [simpl; lia|]). apply Forall_nil_2.
Qed.

Lemma reply_events_ok : Forall rx_event_ok reply_events.
Proof. repeat (apply Forall_cons; split; [done|]). apply Forall_nil_2. Qed.

Section RxInvariant.

Context (w : world).
Hypothesis Hw : rx_invariant w.

(** One turn of the [while] loop: the byte goes to cell [rx_length]. *)
Lemma modbus_poll_byte_run byte :
  exists w',
    modbus_poll_byte byte w = Ok tt w'
    /\ rx_invariant w'
    /\ trace w' = trace w ++ [Poke RxBuffer (rx_length (poll w))].
Proof.
  destruct Hw as [Hlen Hn]. unfold modbus_poll_byte.
  erewrite bind_Ok by reflexivity. cbv zeta.
  erewrite bind_Ok by (apply poke_Ok; lia).
  eexists. split; [reflexivity|]. split; [|reflexivity].
  unfold rx_invariant. cbn [poll with_poll logs rx_buffer rx_length snd].
  rewrite u16_small by (unfold is_u16; lia).
  destruct (4 <? rx_length (poll w) + 1); cbn [rx_length rx_buffer frame_received];
    destruct (Z.leb_spec 256 (rx_length (poll w) + 1));
    cbn [rx_length rx_buffer]; rewrite length_insert; lia.
Qed.

(** Handing the receive buffer over keeps to its cells as well. *)
Lemma process_rx_buffer_run :
  exists w' evs,
    modbus_process_request (RxBuffer, rx_buffer (poll w)) (rx_length (poll w)) w
    = Ok tt w'
    /\ poll w' = poll w
    /\ trace w' = trace w ++ evs
    /\ Forall rx_event_ok evs.
Proof.
  destruct Hw as [Hlen Hn]. set (n := rx_length (poll w)) in *.
  set (request := rx_buffer (poll w)) in *.
  destruct (Z.lt_ge_cases n 5) as [Hshort|Hlong].
  - rewrite process_short by done. do 2 eexists.
    split; [done|]. split; [done|]. split; [done|].
    apply Forall_cons. split; [simpl; lia|apply Forall_nil_2].
  - rewrite process_run by (unfold readable, is_u16; lia). cbv zeta.
    pose proof (request_events_ok request n ltac:(lia)) as Hreq.
    pose proof reply_events_ok as Hrep.
    destruct (crc_matches request n), (cell request 0 =? 1),
      (has_case (cell request 1));
      do 2 eexists; (split; [done|]); (split; [done|]);
      (split; [simpl; try rewrite <- app_assoc; done|]);
      rewrite ?Forall_app; done.
Qed.

End RxInvariant.

Lemma modbus_poll_loop_run incoming w :
  rx_invariant w ->
  exists w' evs,
    modbus_poll_loop incoming w = Ok tt w'
    /\ rx_invariant w'
    /\ trace w' = trace w ++ evs
    /\ Forall rx_event_ok evs.
Proof.
  revert w. induction incoming as [|byte rest IH]; intros w Hw.
  - exists w, []. by rewrite app_nil_r.
  - destruct (modbus_poll_byte_run w Hw byte) as (w1 & Hrun1 & Hw1 & Ht1).
    destruct (IH w1 Hw1) as (w2 & evs & Hrun2 & Hw2 & Ht2 & Hevs).
    exists w2, (Poke RxBuffer (rx_length (poll w)) :: evs).
    cbn [modbus_poll_loop]. erewrite bind_Ok by exact Hrun1.
    split; [done|]. split; [done|]. split.
    + rewrite Ht2, Ht1, <- app_assoc. done.
    + apply Forall_cons. split; [|done]. destruct Hw as [_ Hn]. simpl. lia.
Qed.

(** One call of [modbus_poll]. *)
Lemma modbus_poll_run incoming w :
  rx_invariant w ->
  exists w' evs,
    modbus_poll incoming w = Ok tt w'
    /\ rx_invariant w'
    /\ trace w' = trace w ++ evs
    /\ Forall rx_event_ok evs.
Proof.
  intros Hw. unfold modbus_poll.
  destruct (modbus_poll_loop_run incoming w Hw)
    as (w1 & evs1 & Hrun1 & Hw1 & Ht1 & Hevs1).
  erewrite bind_Ok by exact Hrun1.
  erewrite bind_Ok by reflexivity.
  destruct (frame_received (poll w1)).
  - destruct (process_rx_buffer_run w1 Hw1)
      as (w2 & evs2 & Hrun2 & Hp2 & Ht2 & Hevs2).
    erewrite bind_Ok by exact Hrun2.
    eexists _, (evs1 ++ evs2). split; [reflexivity|].
    split; [|split].
    + destruct Hw1 as [Hlen1 _]. unfold rx_invariant. simpl.
      rewrite Hp2. split; [done|lia].
    + simpl. by rewrite Ht2, Ht1, <- app_assoc.
    + by apply Forall_app.
  - by exists w1, evs1.
Qed.

(** Any number of calls. *)
Lemma main_loop_run deliveries w :
  rx_invariant w ->
  exists w' evs,
    main_loop deliveries w = Ok tt w'
    /\ rx_invariant w'
    /\ trace w' = trace w ++ evs
    /\ Forall rx_event_ok evs.
Proof.
  revert w. induction deliveries as [|incoming rest IH]; intros w Hw.
  - exists w, []. by rewrite app_nil_r.
  - destruct (modbus_poll_run incoming w Hw) as (w1 & evs1 & Hrun1 & Hw1 & Ht1 & Hevs1).
    destruct (IH w1 Hw1) as (w2 & evs2 & Hrun2 & Hw2 & Ht2 & Hevs2).
    exists w2, (evs1 ++ evs2).
    cbn [main_loop]. erewrite bind_Ok by exact Hrun1.
    split; [done|]. split; [done|]. split.
    + by rewrite Ht2, Ht1, <- app_assoc.
    + by apply Forall_app.
Qed.

(** ** The reference CRC on the catalogue's check string

    "123456789" in ASCII has the CRC-16/MODBUS check value 0x4B37. *)
Lemma crc16_reference_check_value :
  crc16_reference [0x31; 0x32; 0x33; 0x34; 0x35; 0x36; 0x37; 0x38; 0x39] = 0x4B37.
Proof. reflexivity. Qed.

(** * The claims *)

(** C1: the source at the failing input.  The five bytes 01 07 00 22 30
    arrive on the UART after power-on; [modbus_poll] hands them over as a
    frame of length 5, and [modbus_process_request] reads cell 5 of the
    buffer, one past the frame, for the low byte of [count] (line 65),
    before it answers. *)
Theorem frame_of_five_reads_cell_5 :
  let w' := world_of (modbus_poll [0x01; 0x07; 0x00; 0x22; 0x30] power_on) in
  exists before after,
    trace w' = before ++ Enter 5 [0x01; 0x07; 0x00; 0x22; 0x30] :: after
    /\ Peek RxBuffer 5 ∈ after
    /\ ~ inside_frame RxBuffer 5 (Peek RxBuffer 5)
    /\ uart_tx w' = [[0x01; 0x87; 0x01; 0x82; 0x30]].
Proof.
  cbv zeta.
  exists (Poke RxBuffer <$> [0; 1; 2; 3; 4]). eexists.
  split; [vm_compute; reflexivity|].
  split; [|split; [|vm_compute; reflexivity]].
  - do 5 apply list_elem_of_further. apply list_elem_of_here.
  - simpl. intros H. specialize (H eq_refl). lia.
Qed.

(** C2, as stated, fails: the broadcast frame 00 06 00 0A 04 D2 2A 84 (write
    1234 to holding register 10, checksum valid) leaves register 10 at 0;
    the store is not the store with the write applied. *)
Lemma broadcast_write_not_applied :
  let request := [0x00; 0x06; 0x00; 0x0A; 0x04; 0xD2; 0x2A; 0x84] in
  let w' := world_of (modbus_process_request (RxBuffer, request) 8 power_on) in
  checksum_ok request 8
  /\ cell request 0 = 0
  /\ write_function (cell request 1) = true
  /\ holding_registers (banks w') !! 10%nat = Some 0
  /\ banks w' <> spec_write_single_register 10 1234 (banks power_on)
  /\ uart_tx w' = [].
Proof.
  cbv zeta. repeat split; try reflexivity.
  vm_compute. discriminate.
Qed.

(** C2, amended. A frame with valid checksum whose station address byte is 0
    and whose function code asks for a write is not executed: the call
    returns with the data store unchanged and nothing transmitted. *)
Theorem broadcast_dropped r request n w :
  readable request n -> bytes request ->
  checksum_ok request n ->
  cell request 0 = 0 ->
  write_function (cell request 1) = true ->
  exists w',
    modbus_process_request (r, request) n w = Ok tt w'
    /\ banks w' = banks w /\ uart_tx w' = uart_tx w.
Proof.
  intros Hr _ _ Haddr _.
  destruct (process_outcome r request n Hr w) as (w' & Hrun & Hb & _ & Htx).
  exists w'. split; [done|]. split; [done|].
  rewrite Htx. unfold replies. rewrite Haddr. simpl.
  rewrite andb_false_r. apply app_nil_r.
Qed.

Lemma broadcast_dropped_witness :
  exists w',
    modbus_process_request
      (RxBuffer, [0x00; 0x06; 0x00; 0x0A; 0x04; 0xD2; 0x2A; 0x84]) 8 power_on
    = Ok tt w'
    /\ banks w' = banks power_on /\ uart_tx w' = uart_tx power_on.
Proof.
  apply (broadcast_dropped RxBuffer
           [0x00; 0x06; 0x00; 0x0A; 0x04; 0xD2; 0x2A; 0x84] 8 power_on).
  - unfold readable, is_u16. simpl. lia.
  - reflexivity.
  - reflexivity.
  - reflexivity.
  - reflexivity.
Defined.

(** C3: the source at the failing inputs.  Each of the four frames is
    addressed to station 1, carries a valid checksum and an address and
    quantity inside the 100-cell banks, and names one of the standard
    function codes 0x02, 0x04, 0x0F, 0x10; each is answered with the
    IllegalFunction exception of the [default] branch, for 0x02 the bytes
    01 82 01 81 60. *)
Theorem standard_functions_rejected :
  Forall (fun '(request, n) =>
            checksum_ok request n
            /\ cell request 0 = 0x01
            /\ standard_function (cell request 1) = true
            /\ word_at request 2 + word_at request 4 <= 100
            /\ uart_tx (world_of (modbus_process_request (RxBuffer, request) n power_on))
               = [exception_frame 0x01 (cell request 1) ERROR_ILLEGAL_FUNCTION])
    [([0x01; FC_READ_DISCRETE_INPUTS; 0x00; 0x00; 0x00; 0x01; 0xB9; 0xCA], 8);
     ([0x01; FC_READ_INPUT_REGS; 0x00; 0x00; 0x00; 0x01; 0x31; 0xCA], 8);
     ([0x01; FC_WRITE_MULTIPLE_COILS; 0x00; 0x00; 0x00; 0x08; 0x01; 0xFF; 0xBE; 0xD5], 10);
     ([0x01; FC_WRITE_MULTIPLE_REGS; 0x00; 0x00; 0x00; 0x01; 0x02; 0x04; 0xD2; 0x24; 0xCD], 11)]
  /\ exception_frame 0x01 FC_READ_DISCRETE_INPUTS ERROR_ILLEGAL_FUNCTION
     = [0x01; 0x82; 0x01; 0x81; 0x60].
Proof.
  split; [|reflexivity].
  repeat (apply Forall_cons; split;
          [repeat split; try (vm_compute; reflexivity); vm_compute; discriminate|]).
  apply Forall_nil_2.
Qed.

(** C4. [modbus_crc16] computes the CRC-16 of the specification (polynomial
    0xA001, initial value 0xFFFF, bits taken least significant first, no
    final XOR) over the first [length] bytes of [data], reading exactly the
    cells [0 .. length-1]; on the bytes 01 03 00 00 00 01 it returns
    0x0A84. *)
Theorem modbus_crc16_standard r data length w :
  bytes data -> is_u16 length -> length <= Z.of_nat (List.length data) ->
  modbus_crc16 (r, data) length w
  = Ok (crc16_reference (take (Z.to_nat length) data))
       (logs (Peek r <$> seqZ 0 length) w)
  /\ modbus_crc16 (r, [0x01; 0x03; 0x00; 0x00; 0x00; 0x01]) 6 w
     = Ok 0x0A84 (logs (Peek r <$> seqZ 0 6) w).
Proof.
  intros Hb Hu Hlen. unfold is_u16 in Hu. split.
  - rewrite modbus_crc16_run by lia.
    by rewrite crc16_bytes_reference by (by apply bytes_take).
  - by rewrite modbus_crc16_run by (simpl; lia).
Qed.

Lemma modbus_crc16_standard_witness :
  modbus_crc16 (RxBuffer, [0x11; 0x22; 0x33]) 2 power_on
  = Ok (crc16_reference (take (Z.to_nat 2) [0x11; 0x22; 0x33]))
       (logs (Peek RxBuffer <$> seqZ 0 2) power_on)
  /\ modbus_crc16 (RxBuffer, [0x01; 0x03; 0x00; 0x00; 0x00; 0x01]) 6 power_on
     = Ok 0x0A84 (logs (Peek RxBuffer <$> seqZ 0 6) power_on).
Proof.
  apply (modbus_crc16_standard RxBuffer [0x11; 0x22; 0x33] 2 power_on).
  - reflexivity.
  - unfold is_u16. lia.
  - simpl. lia.
Defined.

(** C5. A frame shorter than 5 bytes, or one whose last two bytes (low byte
    first) are not the CRC-16 of the bytes before them, is dropped: the call
    returns, nothing is transmitted and the data store is unchanged. *)
Theorem bad_frame_dropped r request n w :
  n < 5 \/ (readable request n /\ bytes request /\ ~ checksum_ok request n) ->
  exists w',
    modbus_process_request (r, request) n w = Ok tt w'
    /\ uart_tx w' = uart_tx w /\ banks w' = banks w.
Proof.
  intros [Hn|(Hr & Hb & Hbad)].
  - rewrite process_short by done. by eexists.
  - destruct (process_outcome r request n Hr w) as (w' & Hrun & Hbk & _ & Htx).
    exists w'. split; [done|]. split; [|done].
    rewrite Htx. unfold replies.
    destruct (crc_matches request n) eqn:Hm.
    + by apply crc_matches_checksum_ok in Hm.
    + rewrite andb_false_r. apply app_nil_r.
Qed.

Lemma bad_frame_dropped_witness :
  exists w',
    modbus_process_request
      (RxBuffer, [0x01; 0x03; 0x00; 0x00; 0x00; 0x01; 0x84; 0x0B]) 8 power_on
    = Ok tt w'
    /\ uart_tx w' = uart_tx power_on /\ banks w' = banks power_on.
Proof.
  apply (bad_frame_dropped RxBuffer
           [0x01; 0x03; 0x00; 0x00; 0x00; 0x01; 0x84; 0x0B] 8 power_on).
  right. split; [|split].
  - unfold readable, is_u16. simpl. lia.
  - reflexivity.
  - unfold checksum_ok. vm_compute. lia.
Defined.

(** C6: the source at the failing inputs.  On the 100-cell holding bank of
    [power_on], the valid requests "read holding registers, start 95,
    quantity 10" and "start 95, quantity 5" both run into the empty
    [case FC_READ_HOLDING_REGS] and are answered with nothing at all:
    neither an IllegalDataAddress exception nor the five register values. *)
Theorem read_holding_registers_unanswered :
  let out_of_range := [0x01; FC_READ_HOLDING_REGS; 0x00; 0x5F; 0x00; 0x0A; 0xF5; 0xDF] in
  let in_range := [0x01; FC_READ_HOLDING_REGS; 0x00; 0x5F; 0x00; 0x05; 0xB5; 0xDB] in
  Z.of_nat (length (holding_registers (banks power_on))) = HOLDING_REGISTER_COUNT
  /\ checksum_ok out_of_range 8 /\ checksum_ok in_range 8
  /\ word_at out_of_range 2 = 95 /\ word_at out_of_range 4 = 10
  /\ word_at in_range 2 = 95 /\ word_at in_range 4 = 5
  /\ (exists w', modbus_process_request (RxBuffer, out_of_range) 8 power_on = Ok tt w'
                 /\ uart_tx w' = [])
  /\ (exists w', modbus_process_request (RxBuffer, in_range) 8 power_on = Ok tt w'
                 /\ uart_tx w' = []).
Proof.
  cbv zeta. repeat split; try reflexivity.
  - eexists. split; [vm_compute; reflexivity|reflexivity].
  - eexists. split; [vm_compute; reflexivity|reflexivity].
Qed.

(** C7, as stated, fails: the four bytes 01 07 41 E2 carry a valid checksum,
    the station address 1 and the function code 0x07, which is none of the
    eight; the length check of line 60 drops them and nothing is
    transmitted. *)
Lemma short_frame_gets_no_reply :
  let request := [0x01; 0x07; 0x41; 0xE2] in
  checksum_ok request 4
  /\ cell request 0 = 0x01
  /\ standard_function (cell request 1) = false
  /\ modbus_process_request (RxBuffer, request) 4 power_on
     = Ok tt (logs [Enter 4 request] power_on)
  /\ uart_tx (logs [Enter 4 request] power_on) = [].
Proof. cbv zeta. repeat split; reflexivity. Qed.

(** C7, amended. For every frame of at least 5 bytes with valid checksum,
    station address 1 and a function code [fc] that is none of the eight,
    exactly one transmission follows, and it is the five bytes
    [01, fc | 0x80, 01, crc_lo, crc_hi], the CRC-16 being taken over the
    first three. *)
Theorem unrecognized_function_reply r request n w fc :
  readable request n -> bytes request ->
  5 <= n ->
  checksum_ok request n ->
  cell request 0 = 0x01 ->
  cell request 1 = fc ->
  standard_function fc = false ->
  exists w',
    modbus_process_request (r, request) n w = Ok tt w'
    /\ uart_tx w'
       = uart_tx w ++
         [let crc := crc16_reference [0x01; Z.lor fc 0x80; ERROR_ILLEGAL_FUNCTION] in
          [0x01; Z.lor fc 0x80; ERROR_ILLEGAL_FUNCTION; crc mod 256; crc / 256]].
Proof.
  intros Hr Hb Hn Hcrc Haddr Hfc Hstd.
  destruct (process_outcome r request n Hr w) as (w' & Hrun & _ & _ & Htx).
  exists w'. split; [done|]. rewrite Htx. f_equal.
  unfold replies.
  destruct (Z.leb_spec 5 n); [|lia].
  apply crc_matches_checksum_ok in Hcrc; [|done]. rewrite Hcrc.
  rewrite Haddr, Hfc. simpl.
  destruct (has_case fc) eqn:Hcase.
  { apply has_case_standard in Hcase. congruence. }
  simpl. f_equal.
  rewrite exception_frame_reference;
    [done|unfold is_u8; lia| |unfold is_u8, ERROR_ILLEGAL_FUNCTION; lia].
  rewrite <- Hfc. by apply bytes_cell.
Qed.

Lemma unrecognized_function_reply_witness :
  exists w',
    modbus_process_request (RxBuffer, [0x01; 0x07; 0x00; 0x22; 0x30]
                                        ++ replicate 251 0) 5 power_on
    = Ok tt w'
    /\ uart_tx w'
       = uart_tx power_on ++
         [let crc := crc16_reference [0x01; Z.lor 0x07 0x80; ERROR_ILLEGAL_FUNCTION] in
          [0x01; Z.lor 0x07 0x80; ERROR_ILLEGAL_FUNCTION; crc mod 256; crc / 256]].
Proof.
  apply (unrecognized_function_reply RxBuffer
           ([0x01; 0x07; 0x00; 0x22; 0x30] ++ replicate 251 0) 5 power_on 0x07).
  - unfold readable, is_u16. simpl. lia.
  - reflexivity.
  - lia.
  - reflexivity.
  - reflexivity.
  - reflexivity.
  - reflexivity.
Defined.

(** C8: the source at the failing input.  After power-on the UART delivers
    01 03, then nothing (a poll finds no byte), then 00 00 00 01.  The first
    two bytes are not handed over when the line falls silent; they stay in
    the buffer, and the six bytes are handed over as ONE frame as soon as
    the count has passed 4. *)
Theorem silence_does_not_end_a_frame :
  let silent := main_loop [[0x01; 0x03]; []] in
  let later := main_loop [[0x01; 0x03]; []; [0x00; 0x00; 0x00; 0x01]] in
  frames_handed (trace (world_of (silent power_on))) = []
  /\ rx_length (poll (world_of (silent power_on))) = 2
  /\ frames_handed (trace (world_of (later power_on)))
     = [(6, [0x01; 0x03; 0x00; 0x00; 0x00; 0x01])].
Proof. cbv zeta. repeat split; vm_compute; reflexivity. Qed.

(** C9. Whatever array and length [modbus_process_request] is called with,
    and whether it returns or runs off the array, the four banks (coils,
    discrete inputs, holding registers, input registers) are afterwards what
    they were before: no request, the write function codes 0x05, 0x06, 0x0F
    and 0x10 included, modifies the data store. *)
Theorem process_request_keeps_banks request request_length w :
  banks (world_of (modbus_process_request request request_length w)) = banks w.
Proof.
  revert w. change (keeps_banks (modbus_process_request request request_length)).
  unfold modbus_process_request. cbv zeta.
  repeat keeps_step.
Qed.

(** C10. [modbus_poll] keeps 0 <= rx_length <= 255 from call to call.  From
    a state in which it holds (the state after power-on is one), and for any
    bytes the UART delivers, one call and any number of calls in a row
    return without an access outside an array and in a state in which it
    holds again; every cell of [rx_buffer] that is written or read on the
    way has an index below 256, and every frame handed to
    [modbus_process_request] has a length of at most 255. *)
Theorem modbus_poll_keeps_rx_length w :
  rx_invariant w ->
  (forall incoming, exists w' evs,
      modbus_poll incoming w = Ok tt w'
      /\ rx_invariant w'
      /\ trace w' = trace w ++ evs
      /\ Forall rx_event_ok evs)
  /\ (forall deliveries, exists w' evs,
      main_loop deliveries w = Ok tt w'
      /\ rx_invariant w'
      /\ trace w' = trace w ++ evs
      /\ Forall rx_event_ok evs).
Proof.
  intros Hw. split.
  - intros incoming. by apply modbus_poll_run.
  - intros deliveries. by apply main_loop_run.
Qed.

Lemma modbus_poll_keeps_rx_length_witness :
  (forall incoming, exists w' evs,
      modbus_poll incoming power_on = Ok tt w'
      /\ rx_invariant w'
      /\ trace w' = trace power_on ++ evs
      /\ Forall rx_event_ok evs)
  /\ (forall deliveries, exists w' evs,
      main_loop deliveries power_on = Ok tt w'
      /\ rx_invariant w'
      /\ trace w' = trace power_on ++ evs
      /\ Forall rx_event_ok evs).
Proof.
  apply (modbus_poll_keeps_rx_length power_on).
  unfold rx_invariant. split.
  - reflexivity.
  - simpl. lia.
Defined.

(** * Further properties *)

(** ** Cells and frames *)

Lemma cell_take l n i : 0 <= i < n -> cell (take (Z.to_nat n) l) i = cell l i.
Proof.
  intros Hi. unfold cell. destruct (0 <=? i); [|done].
  by rewrite lookup_take_lt by lia.
Qed.

Lemma cell_app_l l1 l2 i :
  0 <= i < Z.of_nat (length l1) -> cell (l1 ++ l2) i = cell l1 i.
Proof.
  intros Hi. unfold cell. destruct (0 <=? i); [|done].
  by rewrite lookup_app_l by lia.
Qed.

Lemma cell_app_r l1 l2 i :
  Z.of_nat (length l1) <= i -> cell (l1 ++ l2) i = cell l2 (i - Z.of_nat (length l1)).
Proof.
  intros Hi. unfold cell.
  destruct (Z.leb_spec 0 i); [|lia].
  destruct (Z.leb_spec 0 (i - Z.of_nat (length l1))); [|lia].
  rewrite lookup_app_r by lia. do 2 f_equal. lia.
Qed.

Lemma frames_handed_app t1 t2 :
  frames_handed (t1 ++ t2) = frames_handed t1 ++ frames_handed t2.
Proof. apply omap_app. Qed.

Lemma frames_handed_peek r l : frames_handed (Peek r <$> l) = [].
Proof. induction l as [|i l IH]; [done|exact IH]. Qed.

Lemma frames_handed_poke r l : frames_handed (Poke r <$> l) = [].
Proof. induction l as [|i l IH]; [done|exact IH]. Qed.

Lemma frames_handed_request_events r request n :
  frames_handed (request_events r request n) = [(n, take (Z.to_nat n) request)].
Proof.
  unfold request_events. cbn [frames_handed omap list_omap]. f_equal.
  change (frames_handed ((Peek r <$> [0; 1; 2; 3; 4; 5])
                         ++ (Peek r <$> seqZ 0 (n - 2))
                         ++ (Peek r <$> [n - 1; n - 2])) = []).
  by rewrite !frames_handed_app, !frames_handed_peek.
Qed.

(** ** More on the CRC *)

Lemma is_u16_u16 x : is_u16 (u16 x).
Proof. unfold is_u16, u16. apply Z.mod_pos_bound. lia. Qed.

Lemma is_u8_u8 x : is_u8 (u8 x).
Proof. unfold is_u8, u8. apply Z.mod_pos_bound. lia. Qed.

Lemma is_u16_crc16_round c : is_u16 (crc16_round c).
Proof. unfold crc16_round. destruct (negb _); apply is_u16_u16. Qed.

Lemma is_u16_crc16_rounds k c : is_u16 c -> is_u16 (crc16_rounds k c).
Proof.
  revert c. induction k as [|k IH]; intros c Hc; [done|].
  apply IH, is_u16_crc16_round.
Qed.

Lemma is_u16_crc16_byte c b : is_u16 (crc16_byte c b).
Proof. apply is_u16_crc16_rounds, is_u16_u16. Qed.

Lemma is_u16_foldl_crc16_byte l c : is_u16 c -> is_u16 (foldl crc16_byte c l).
Proof.
  revert c. induction l as [|b l IH]; intros c Hc; [done|].
  apply IH, is_u16_crc16_byte.
Qed.

Lemma is_u16_crc16_bytes l : is_u16 (crc16_bytes l).
Proof. apply is_u16_foldl_crc16_byte. unfold is_u16. lia. Qed.

(** The bit that enters at the top of the register tells whether the
    polynomial was fed back. *)
Lemma crc16_shift_in_bit15 c b :
  is_u16 c -> Z.testbit (crc16_shift_in c b) 15 = xorb (Z.odd c) b.
Proof.
  intros Hc. apply is_u16_bits in Hc as [Hc0 Hc].
  unfold crc16_shift_in. destruct (xorb (Z.odd c) b).
  - rewrite Z.lxor_spec, Z.shiftr_spec by lia. by rewrite Hc by lia.
  - rewrite Z.shiftr_spec by lia. by rewrite Hc by lia.
Qed.

(** One shift of the register loses nothing. *)
Lemma crc16_shift_in_inj c1 c2 b :
  is_u16 c1 -> is_u16 c2 ->
  crc16_shift_in c1 b = crc16_shift_in c2 b -> c1 = c2.
Proof.
  intros H1 H2 Heq.
  assert (Z.odd c1 = Z.odd c2) as Hodd.
  { pose proof (crc16_shift_in_bit15 c1 b H1) as B1.
    pose proof (crc16_shift_in_bit15 c2 b H2) as B2.
    rewrite Heq, B2 in B1. by destruct (Z.odd c1), (Z.odd c2), b. }
  assert (Z.shiftr c1 1 = Z.shiftr c2 1) as Hshift.
  { unfold crc16_shift_in in Heq. rewrite Hodd in Heq.
    destruct (xorb (Z.odd c2) b); [|done].
    apply (f_equal (fun x => Z.lxor x 40961)) in Heq.
    by rewrite !Z.lxor_assoc, Z.lxor_nilpotent, !Z.lxor_0_r in Heq. }
  apply Z.bits_inj'. intros m Hm.
  destruct (Z.eq_dec m 0) as [->|Hne].
  - by rewrite !Z.bit0_odd.
  - replace m with ((m - 1) + 1) by lia.
    rewrite <- !Z.shiftr_spec by lia. by rewrite Hshift.
Qed.

Lemma crc16_rounds_inj k c1 c2 :
  is_u16 c1 -> is_u16 c2 ->
  crc16_rounds k c1 = crc16_rounds k c2 -> c1 = c2.
Proof.
  revert c1 c2. induction k as [|k IH]; intros c1 c2 H1 H2 Heq; [done|].
  simpl in Heq. apply IH in Heq; try apply is_u16_crc16_round.
  rewrite !crc16_round_shift_in in Heq by done.
  by eapply crc16_shift_in_inj.
Qed.

Lemma lxor_u16_small c b : is_u16 c -> is_u8 b -> u16 (Z.lxor c (u16 b)) = Z.lxor c b.
Proof.
  intros Hc Hb. rewrite (u16_small b) by (by apply is_u8_u16).
  apply u16_small, is_u16_lxor; [done|by apply is_u8_u16].
Qed.

(** For one register value, different bytes give different registers. *)
Lemma crc16_byte_inj_byte c b1 b2 :
  is_u16 c -> is_u8 b1 -> is_u8 b2 ->
  crc16_byte c b1 = crc16_byte c b2 -> b1 = b2.
Proof.
  intros Hc H1 H2 Heq. unfold crc16_byte in Heq.
  rewrite !lxor_u16_small in Heq by done.
  apply crc16_rounds_inj in Heq;
    try (apply is_u16_lxor; [done|by apply is_u8_u16]).
  apply (f_equal (Z.lxor c)) in Heq.
  by rewrite <- !Z.lxor_assoc, Z.lxor_nilpotent, !Z.lxor_0_l in Heq.
Qed.

(** For one byte, different register values give different registers. *)
Lemma crc16_byte_inj_crc c1 c2 b :
  is_u16 c1 -> is_u16 c2 -> is_u8 b ->
  crc16_byte c1 b = crc16_byte c2 b -> c1 = c2.
Proof.
  intros H1 H2 Hb Heq. unfold crc16_byte in Heq.
  rewrite !lxor_u16_small in Heq by done.
  apply crc16_rounds_inj in Heq;
    try (apply is_u16_lxor; [done|by apply is_u8_u16]).
  apply (f_equal (fun x => Z.lxor x b)) in Heq.
  by rewrite !Z.lxor_assoc, Z.lxor_nilpotent, !Z.lxor_0_r in Heq.
Qed.

Lemma foldl_crc16_byte_inj l c1 c2 :
  bytes l -> is_u16 c1 -> is_u16 c2 ->
  foldl crc16_byte c1 l = foldl crc16_byte c2 l -> c1 = c2.
Proof.
  rewrite bytes_Forall. intros Hl. revert c1 c2.
  induction Hl as [|b l Hb Hl IH]; intros c1 c2 H1 H2 Heq; [done|].
  simpl in Heq. apply IH in Heq; try apply is_u16_crc16_byte.
  by eapply crc16_byte_inj_crc.
Qed.

(** Two messages that differ in one byte have different checksums. *)
Lemma crc16_bytes_one_byte l i a b :
  bytes l -> is_u8 b -> l !! i = Some a -> a <> b ->
  crc16_bytes (<[i := b]> l) <> crc16_bytes l.
Proof.
  intros Hl Hb Hi Hne Heq.
  pose proof (take_drop_middle l i a Hi) as Hsplit.
  assert (length (take i l) = i) as Hlen
    by (rewrite length_take; apply lookup_lt_Some in Hi; lia).
  rewrite <- Hsplit in Heq at 1 2.
  replace i with (length (take i l) + 0)%nat in Heq at 1 by lia.
  rewrite insert_app_r in Heq. cbn [list_insert insert] in Heq.
  unfold crc16_bytes in Heq. rewrite !foldl_app in Heq. cbn [foldl] in Heq.
  apply bytes_Forall in Hl as Hall.
  assert (is_u8 a) as Ha by (by eapply Forall_lookup_1).
  apply foldl_crc16_byte_inj in Heq; try apply is_u16_crc16_byte.
  - apply crc16_byte_inj_byte in Heq; [congruence| |done|done].
    apply is_u16_foldl_crc16_byte. unfold is_u16. lia.
  - apply bytes_Forall, Forall_drop, Hall.
Qed.

Lemma is_u16_shiftr_n c k : 0 <= k -> is_u16 c -> is_u16 (Z.shiftr c k).
Proof.
  intros Hk. rewrite !is_u16_bits. intros [Hc Hc']. split.
  - by apply Z.shiftr_nonneg.
  - intros m Hm. rewrite Z.shiftr_spec by lia. apply Hc'. lia.
Qed.

(** A register that is fed its own bits empties itself. *)
Lemma crc16_shift_in_own_bits k c :
  foldl crc16_shift_in c (bits_lsb_first k c) = Z.shiftr c (Z.of_nat k).
Proof.
  revert c. induction k as [|k IH]; intros c.
  - by rewrite Z.shiftr_0_r.
  - rewrite bits_lsb_first_S. cbn [foldl].
    replace (crc16_shift_in c (Z.odd c)) with (Z.shiftr c 1)
      by (unfold crc16_shift_in; by rewrite xorb_nilpotent).
    rewrite IH, Z.shiftr_shiftr by lia. f_equal. lia.
Qed.

Lemma bits_lsb_first_mod c :
  bits_lsb_first 8 (c mod 256) = bits_lsb_first 8 c.
Proof.
  unfold bits_lsb_first. apply list_fmap_ext. intros i j Hj.
  apply lookup_seq in Hj as [-> Hj].
  change 256 with (2 ^ 8). by rewrite Z.mod_pow2_bits_low by lia.
Qed.

Lemma crc16_low_byte crc : u8 (Z.land crc 0xFF) = crc mod 256.
Proof.
  change 255 with (Z.ones 8). rewrite Z.land_ones by lia.
  unfold u8. change (2 ^ 8) with 256. apply Z.mod_mod. lia.
Qed.

Lemma crc16_high_byte crc : is_u16 crc -> u8 (Z.shiftr crc 8) = crc / 256.
Proof.
  intros Hc. unfold is_u16 in Hc.
  rewrite Z.shiftr_div_pow2 by lia. change (2 ^ 8) with 256.
  apply u8_small. unfold is_u8.
  split; [apply Z.div_pos; lia | apply Z.div_lt_upper_bound; lia].
Qed.

(** Taking in the low and then the high byte of the register clears it. *)
Lemma crc16_byte_residue crc :
  is_u16 crc ->
  crc16_byte (crc16_byte crc (u8 (Z.land crc 0xFF))) (u8 (Z.shiftr crc 8)) = 0.
Proof.
  intros Hc. rewrite crc16_low_byte, crc16_high_byte by done.
  assert (is_u8 (crc mod 256)) as Hlo
    by (unfold is_u8; apply Z.mod_pos_bound; lia).
  assert (is_u8 (crc / 256)) as Hhi.
  { unfold is_u8, is_u16 in *.
    split; [apply Z.div_pos; lia | apply Z.div_lt_upper_bound; lia]. }
  rewrite (crc16_byte_bits crc) by done.
  rewrite bits_lsb_first_mod, crc16_shift_in_own_bits.
  rewrite crc16_byte_bits; [|apply is_u16_shiftr_n; [lia|done]|done].
  replace (crc / 256) with (Z.shiftr crc (Z.of_nat 8))
    by (rewrite Z.shiftr_div_pow2 by lia; done).
  rewrite crc16_shift_in_own_bits, Z.shiftr_shiftr by lia.
  rewrite Z.shiftr_div_pow2 by lia. apply Z.div_small. apply Hc.
Qed.

(** ** More on [modbus_poll] *)

(** One turn of the [while] loop, as a function of the state. *)
Lemma modbus_poll_byte_eq byte w :
  rx_invariant w ->
  modbus_poll_byte byte w
  = Ok tt (with_poll (statics_after_byte (poll w) byte)
                     (logs [Poke RxBuffer (rx_length (poll w))] w)).
Proof.
  intros [Hlen Hn]. unfold modbus_poll_byte.
  erewrite bind_Ok by reflexivity. cbv zeta.
  erewrite bind_Ok by (apply poke_Ok; lia).
  unfold modify, statics_after_byte. cbn [snd rx_length rx_buffer frame_received].
  rewrite u16_small by (unfold is_u16; lia).
  destruct (4 <? rx_length (poll w) + 1);
    cbn [rx_length rx_buffer frame_received];
    destruct (256 <=? rx_length (poll w) + 1), (frame_received (poll w));
    reflexivity.
Qed.

Lemma rx_invariant_after_byte byte w :
  rx_invariant w ->
  rx_invariant (with_poll (statics_after_byte (poll w) byte)
                          (logs [Poke RxBuffer (rx_length (poll w))] w)).
Proof.
  intros [Hlen Hn]. unfold rx_invariant, statics_after_byte. simpl.
  rewrite length_insert. destruct (Z.leb_spec 256 (rx_length (poll w) + 1)); lia.
Qed.

Lemma loop_invariant_after_byte byte w :
  loop_invariant w ->
  loop_invariant (with_poll (statics_after_byte (poll w) byte)
                            (logs [Poke RxBuffer (rx_length (poll w))] w)).
Proof.
  intros [Hw Hfr]. split; [by apply rx_invariant_after_byte|].
  unfold statics_after_byte. simpl.
  destruct Hfr as [->|Hm]; [by left|].
  destruct (Z.ltb_spec 4 (rx_length (poll w) + 1)).
  - left. apply orb_true_r.
  - right. destruct Hw as [_ Hn].
    destruct (Z.leb_spec 256 (rx_length (poll w) + 1)); lia.
Qed.

(** The [while] loop over a delivery that fits: the bytes land behind
    the pending ones, the count goes up by their number and falls back to
    0 when it reaches 256, the flag is set once the count has passed 4. *)
Lemma modbus_poll_loop_eq incoming w :
  loop_invariant w ->
  rx_length (poll w) + Z.of_nat (length incoming) <= 256 ->
  let m := rx_length (poll w) in
  let k := Z.of_nat (length incoming) in
  modbus_poll_loop incoming w
  = Ok tt (with_poll
             (Statics (take (Z.to_nat m) (rx_buffer (poll w)) ++ incoming
                       ++ drop (Z.to_nat (m + k)) (rx_buffer (poll w)))
                      (if 256 <=? m + k then 0 else m + k)
                      (frame_received (poll w) || (4 <? m + k)))
             (logs (Poke RxBuffer <$> seqZ m k) w)).
Proof.
  revert w. induction incoming as [|byte rest IH]; intros w Hw Hfit; cbv zeta.
  - destruct Hw as [[Hlen Hn] Hfr]. cbn [modbus_poll_loop length Z.of_nat].
    rewrite Z.add_0_r, app_nil_l, take_drop.
    destruct (Z.leb_spec 256 (rx_length (poll w))); [lia|].
    replace (frame_received (poll w) || (4 <? rx_length (poll w)))
      with (frame_received (poll w)).
    2:{ destruct Hfr as [->|Hm]; [done|].
        destruct (Z.ltb_spec 4 (rx_length (poll w))); [lia|by rewrite orb_false_r]. }
    destruct w as [b [buf n fr] tx tr]. unfold with_poll, logs. simpl.
    by rewrite app_nil_r.
  - cbn [modbus_poll_loop]. destruct Hw as [Hw Hfr].
    erewrite bind_Ok by (by apply modbus_poll_byte_eq).
    pose proof (loop_invariant_after_byte byte w (conj Hw Hfr)) as Hw1.
    destruct Hw as [Hlen Hn]. cbn [length] in Hfit.
    destruct (Z.eq_dec (rx_length (poll w) + 1) 256) as [Hfull|Hroom].
    + (* the buffer is full: nothing can follow *)
      destruct rest; [|simpl in Hfit; lia].
      cbn [modbus_poll_loop length]. unfold mret, M_ret, statics_after_byte.
      replace (Z.of_nat 1) with 1 by done. rewrite Hfull.
      f_equal. unfold with_poll, logs. simpl. f_equal.
      f_equal.
      rewrite insert_take_drop by lia. do 3 f_equal. lia.
    + rewrite IH; [|done|unfold statics_after_byte; simpl;
                         destruct (Z.leb_spec 256 (rx_length (poll w) + 1)); lia].
      cbv zeta. unfold statics_after_byte. cbn [poll with_poll logs rx_length rx_buffer frame_received].
      destruct (Z.leb_spec 256 (rx_length (poll w) + 1)); [lia|].
      replace (rx_length (poll w) + 1 + Z.of_nat (length rest))
        with (rx_length (poll w) + Z.of_nat (S (length rest))) by lia.
      f_equal. unfold with_poll, logs. simpl. f_equal.
      * f_equal.
        -- destruct (lookup_lt_is_Some_2 (rx_buffer (poll w)) (Z.to_nat (rx_length (poll w))))
             as [x Hx]; [lia|].
           replace (Z.to_nat (rx_length (poll w) + 1)) with (S (Z.to_nat (rx_length (poll w)))) by lia.
           erewrite take_S_r by (apply list_lookup_insert_eq; lia).
           rewrite take_insert_ge by lia.
           rewrite <- app_assoc. simpl. do 3 f_equal.
           apply drop_insert_lt. lia.
        -- rewrite <- orb_assoc. f_equal.
           destruct (Z.ltb_spec 4 (rx_length (poll w) + 1)),
             (Z.ltb_spec 4 (rx_length (poll w) + Z.of_nat (S (length rest)))); try done; lia.
      * rewrite <- app_assoc. f_equal.
        rewrite (seqZ_cons (rx_length (poll w))) by lia.
        replace (Z.pred (Z.of_nat (S (length rest)))) with (Z.of_nat (length rest)) by lia.
        reflexivity.
Qed.

Lemma pending_loop_invariant w : pending_invariant w -> loop_invariant w.
Proof. intros (Hw & _ & Hm). split; [done|by right]. Qed.

(** The [while] loop over any delivery, however long. *)
Lemma modbus_poll_loop_any incoming w :
  loop_invariant w ->
  exists w',
    modbus_poll_loop incoming w = Ok tt w'
    /\ loop_invariant w'
    /\ uart_tx w' = uart_tx w /\ banks w' = banks w
    /\ frames_handed (trace w') = frames_handed (trace w).
Proof.
  revert w. induction incoming as [|byte rest IH]; intros w Hw.
  - by exists w.
  - cbn [modbus_poll_loop].
    erewrite bind_Ok by (apply modbus_poll_byte_eq, Hw).
    destruct (IH _ (loop_invariant_after_byte byte w Hw))
      as (w' & Hrun & Hw' & Htx & Hb & Hfr).
    exists w'. split; [done|]. split; [done|].
    split; [by rewrite Htx|]. split; [by rewrite Hb|].
    rewrite Hfr. simpl. rewrite frames_handed_app. simpl. apply app_nil_r.
Qed.

Lemma modbus_poll_loop_app l1 l2 w :
  modbus_poll_loop (l1 ++ l2) w
  = (modbus_poll_loop l1 ;; modbus_poll_loop l2) w.
Proof.
  revert w. induction l1 as [|byte l1 IH]; intros w; [done|].
  cbn [app modbus_poll_loop]. unfold mbind, M_bind.
  destruct (modbus_poll_byte byte w) as [[] w1|w1]; [|done].
  rewrite IH. reflexivity.
Qed.

(** The hand-over of lines 153-157, seen from [modbus_poll]. *)
Lemma process_rx_handed w :
  rx_invariant w ->
  let n := rx_length (poll w) in
  let request := rx_buffer (poll w) in
  exists w',
    modbus_process_request (RxBuffer, request) n w = Ok tt w'
    /\ poll w' = poll w /\ banks w' = banks w
    /\ frames_handed (trace w')
       = frames_handed (trace w) ++ [(n, take (Z.to_nat n) request)]
    /\ uart_tx w' = uart_tx w ++
         (if replies request n
          then [exception_frame (cell request 0) (cell request 1) ERROR_ILLEGAL_FUNCTION]
          else []).
Proof.
  intros [Hlen Hn] n request. subst n request.
  set (n := rx_length (poll w)) in *. set (request := rx_buffer (poll w)) in *.
  assert (readable request n) as Hr by (unfold readable, is_u16; lia).
  destruct (process_outcome RxBuffer request n Hr w) as (w' & Hrun & Hb & Hp & Htx).
  exists w'. split; [done|]. split; [done|]. split; [done|]. split; [|done].
  destruct (Z.lt_ge_cases n 5) as [Hshort|Hlong].
  - rewrite process_short in Hrun by done. injection Hrun as <-.
    simpl. by rewrite frames_handed_app.
  - destruct (process_trace RxBuffer request n Hr w Hlong)
      as (w'' & tail & Hrun' & Htr & Htail).
    rewrite Hrun in Hrun'. injection Hrun' as <-.
    rewrite Htr, !frames_handed_app, frames_handed_request_events.
    destruct Htail as [-> | ->]; simpl; by rewrite ?app_nil_r.
Qed.

Lemma replies_is_exception_reply request n :
  Forall is_exception_reply
    (if replies request n
     then [exception_frame (cell request 0) (cell request 1) ERROR_ILLEGAL_FUNCTION]
     else []).
Proof.
  unfold replies.
  destruct (5 <=? n), (crc_matches request n); simpl; try apply Forall_nil_2.
  destruct (Z.eqb_spec (cell request 0) 1) as [->|]; simpl; [|apply Forall_nil_2].
  destruct (has_case (cell request 1)) eqn:Hcase; simpl; [apply Forall_nil_2|].
  apply Forall_singleton. by exists (cell request 1).
Qed.

(** One call of [modbus_poll] between two quiet states. *)
Lemma modbus_poll_step incoming w :
  pending_invariant w ->
  exists w' fs,
    modbus_poll incoming w = Ok tt w'
    /\ pending_invariant w'
    /\ banks w' = banks w
    /\ uart_tx w' = uart_tx w ++ fs
    /\ (length fs <= 1)%nat
    /\ Forall is_exception_reply fs.
Proof.
  intros Hw. unfold modbus_poll.
  destruct (modbus_poll_loop_any incoming w (pending_loop_invariant w Hw))
    as (w1 & Hrun1 & [Hw1 Hfr1] & Htx1 & Hb1 & _).
  erewrite bind_Ok by exact Hrun1.
  erewrite bind_Ok by reflexivity.
  destruct (frame_received (poll w1)) eqn:Hfr.
  - destruct (process_rx_handed w1 Hw1) as (w2 & Hrun2 & Hp2 & Hb2 & _ & Htx2).
    erewrite bind_Ok by exact Hrun2.
    eexists _, _. split; [reflexivity|].
    split; [|split; [|split; [|split]]].
    + destruct Hw1 as [Hlen1 _]. unfold pending_invariant, rx_invariant. simpl.
      rewrite Hp2. repeat split; (done || lia).
    + simpl. by rewrite Hb2.
    + simpl. rewrite Htx2, Htx1. reflexivity.
    + destruct (replies _ _); simpl; lia.
    + apply replies_is_exception_reply.
  - exists w1, []. split; [done|].
    split; [|split; [done|split; [by rewrite app_nil_r|split; [simpl; lia|apply Forall_nil_2]]]].
    destruct Hfr1 as [?|Hm]; [congruence|]. by split.
Qed.

Lemma main_loop_step deliveries w :
  pending_invariant w ->
  exists w' fs,
    main_loop deliveries w = Ok tt w'
    /\ pending_invariant w'
    /\ banks w' = banks w
    /\ uart_tx w' = uart_tx w ++ fs
    /\ (length fs <= length deliveries)%nat
    /\ Forall is_exception_reply fs.
Proof.
  revert w. induction deliveries as [|incoming rest IH]; intros w Hw.
  - exists w, []. rewrite app_nil_r.
    split; [done|]. split; [done|]. split; [done|]. split; [done|].
    split; [done|apply Forall_nil_2].
  - destruct (modbus_poll_step incoming w Hw)
      as (w1 & fs1 & Hrun1 & Hw1 & Hb1 & Htx1 & Hlen1 & Hfs1).
    destruct (IH w1 Hw1) as (w2 & fs2 & Hrun2 & Hw2 & Hb2 & Htx2 & Hlen2 & Hfs2).
    exists w2, (fs1 ++ fs2). cbn [main_loop]. erewrite bind_Ok by exact Hrun1.
    split; [done|]. split; [done|]. split; [congruence|].
    split; [by rewrite Htx2, Htx1, app_assoc|].
    split; [rewrite length_app; simpl; lia|by apply Forall_app].
Qed.

(** ** Checksums made and checked *)

(** The two bytes of lines 111-112 put together again as line 69 does. *)
Lemma crc16_bytes_joined crc :
  is_u16 crc ->
  u16 (Z.lor (Z.shiftl (u8 (Z.shiftr crc 8)) 8) (u8 (Z.land crc 0xFF))) = crc.
Proof.
  intros Hc. rewrite crc16_low_byte, crc16_high_byte by done.
  rewrite lor_shiftl_bytes by (unfold is_u8; apply Z.mod_pos_bound; lia).
  rewrite u16_small; unfold is_u16 in *; pose proof (Z.div_mod crc 256); lia.
Qed.

(** A body followed by its checksum, low byte first, passes line 70. *)
Lemma crc_matches_appended body tail :
  let crc := crc16_bytes body in
  crc_matches (body ++ [u8 (Z.land crc 0xFF); u8 (Z.shiftr crc 8)] ++ tail)
              (Z.of_nat (length body) + 2) = true.
Proof.
  cbv zeta. unfold crc_matches.
  replace (Z.of_nat (length body) + 2 - 2) with (Z.of_nat (length body)) by lia.
  replace (Z.of_nat (length body) + 2 - 1) with (Z.of_nat (length body) + 1) by lia.
  rewrite Nat2Z.id, take_app_length.
  rewrite (cell_app_r body _ (Z.of_nat (length body))),
    (cell_app_r body _ (Z.of_nat (length body) + 1)) by lia.
  replace (Z.of_nat (length body) - Z.of_nat (length body)) with 0 by lia.
  replace (Z.of_nat (length body) + 1 - Z.of_nat (length body)) with 1 by lia.
  change (cell (_ ++ tail) 1) with (u8 (Z.shiftr (crc16_bytes body) 8)).
  change (cell (_ ++ tail) 0) with (u8 (Z.land (crc16_bytes body) 0xFF)).
  rewrite crc16_bytes_joined by apply is_u16_crc16_bytes.
  apply Z.eqb_refl.
Qed.

Lemma take_S_S_cell l n :
  0 <= n -> n + 2 <= Z.of_nat (length l) ->
  take (Z.to_nat (n + 2)) l = take (Z.to_nat n) l ++ [cell l n; cell l (n + 1)].
Proof.
  intros Hn Hlen.
  destruct (lookup_lt_is_Some_2 l (Z.to_nat n)) as [a Ha]; [lia|].
  destruct (lookup_lt_is_Some_2 l (S (Z.to_nat n))) as [b Hb]; [lia|].
  replace (Z.to_nat (n + 2)) with (S (S (Z.to_nat n))) by lia.
  rewrite (take_S_r _ _ _ Hb), (take_S_r _ _ _ Ha), <- app_assoc.
  unfold cell.
  destruct (Z.leb_spec 0 n); [|lia]. destruct (Z.leb_spec 0 (n + 1)); [|lia].
  replace (Z.to_nat (n + 1)) with (S (Z.to_nat n)) by lia.
  by rewrite Ha, Hb.
Qed.

(** X2. The checksum of a message followed by its own checksum is 0.  If
    [modbus_crc16] over the first [n] cells returns [crc], and the next two
    cells hold [crc]'s low byte and then its high byte (the order of
    lines 111-112), then [modbus_crc16] over the [n + 2] cells returns 0. *)
Theorem modbus_crc16_residue r data n w crc w1 :
  0 <= n -> is_u16 (n + 2) -> n + 2 <= Z.of_nat (length data) ->
  modbus_crc16 (r, data) n w = Ok crc w1 ->
  cell data n = u8 (Z.land crc 0xFF) ->
  cell data (n + 1) = u8 (Z.shiftr crc 8) ->
  modbus_crc16 (r, data) (n + 2) w = Ok 0 (logs (Peek r <$> seqZ 0 (n + 2)) w).
Proof.
  intros Hn Hu Hlen Hrun Hlo Hhi. unfold is_u16 in Hu.
  rewrite modbus_crc16_run in Hrun by lia. injection Hrun as Hcrc _.
  rewrite modbus_crc16_run by lia. f_equal.
  rewrite take_S_S_cell by lia. unfold crc16_bytes. rewrite foldl_app.
  fold (crc16_bytes (take (Z.to_nat n) data)). rewrite Hcrc, Hlo, Hhi.
  cbn [foldl]. apply crc16_byte_residue. rewrite <- Hcrc. apply is_u16_crc16_bytes.
Qed.

Lemma modbus_crc16_residue_witness :
  modbus_crc16 (RxBuffer, [0x01; 0x03; 0x00; 0x00; 0x00; 0x01; 0x84; 0x0A]) (6 + 2) power_on
  = Ok 0 (logs (Peek RxBuffer <$> seqZ 0 (6 + 2)) power_on).
Proof.
  apply (modbus_crc16_residue RxBuffer
           [0x01; 0x03; 0x00; 0x00; 0x00; 0x01; 0x84; 0x0A] 6 power_on 0x0A84
           (logs (Peek RxBuffer <$> seqZ 0 6) power_on)).
  - lia.
  - unfold is_u16. lia.
  - simpl. lia.
  - reflexivity.
  - reflexivity.
  - reflexivity.
Defined.

(** X3. One wrong byte changes the checksum.  For two arrays of bytes
    that differ in exactly one of the first [n] cells, [modbus_crc16] over
    [n] cells returns different values. *)
Theorem modbus_crc16_detects_one_byte r data n i a b w :
  bytes data -> is_u8 b -> is_u16 n -> n <= Z.of_nat (length data) ->
  Z.of_nat i < n -> data !! i = Some a -> a <> b ->
  exists c1 c2 w1 w2,
    modbus_crc16 (r, data) n w = Ok c1 w1
    /\ modbus_crc16 (r, <[i := b]> data) n w = Ok c2 w2
    /\ c1 <> c2.
Proof.
  intros Hd Hb Hu Hlen Hi Ha Hne. unfold is_u16 in Hu.
  do 4 eexists. split; [apply modbus_crc16_run; lia|].
  split; [apply modbus_crc16_run; rewrite ?length_insert; lia|].
  rewrite take_insert_lt by lia. intros Heq. symmetry in Heq.
  eapply crc16_bytes_one_byte; [| | | |exact Heq];
    [by apply bytes_take|done| |done].
  by rewrite lookup_take_lt by lia.
Qed.

Lemma modbus_crc16_detects_one_byte_witness :
  exists c1 c2 w1 w2,
    modbus_crc16 (RxBuffer, [0x01; 0x03; 0x00; 0x00; 0x00; 0x01]) 6 power_on = Ok c1 w1
    /\ modbus_crc16 (RxBuffer, <[3%nat := 0x10]> [0x01; 0x03; 0x00; 0x00; 0x00; 0x01]) 6 power_on
       = Ok c2 w2
    /\ c1 <> c2.
Proof.
  apply (modbus_crc16_detects_one_byte RxBuffer
           [0x01; 0x03; 0x00; 0x00; 0x00; 0x01] 6 3 0x00 0x10 power_on).
  - reflexivity.
  - unfold is_u8. lia.
  - unfold is_u16. lia.
  - simpl. lia.
  - lia.
  - reflexivity.
  - lia.
Defined.

(** ** More on [modbus_process_request] *)

Lemma cell_insert_ne l i j b :
  Z.of_nat i <> j -> cell (<[i := b]> l) j = cell l j.
Proof.
  intros Hne. unfold cell. destruct (Z.leb_spec 0 j); [|done].
  by rewrite list_lookup_insert_ne by lia.
Qed.

Lemma cell_lookup l i a : l !! i = Some a -> cell l (Z.of_nat i) = a.
Proof.
  intros Ha. unfold cell. destruct (Z.leb_spec 0 (Z.of_nat i)); [|lia].
  by rewrite Nat2Z.id, Ha.
Qed.

Lemma bytes_insert l i b : bytes l -> is_u8 b -> bytes (<[i := b]> l).
Proof. rewrite !bytes_Forall. intros Hl Hb. by apply Forall_insert. Qed.

(** A valid frame with one byte changed is not a valid frame. *)
Lemma checksum_ok_one_byte request n i a b :
  bytes request -> is_u8 b -> 5 <= n ->
  checksum_ok request n ->
  Z.of_nat i < n -> request !! i = Some a -> a <> b ->
  ~ checksum_ok (<[i := b]> request) n.
Proof.
  intros Hreq Hb Hn Hok Hi Ha Hne Hbad.
  unfold checksum_ok in *.
  apply bytes_Forall in Hreq as Hall.
  destruct (Z.lt_ge_cases (Z.of_nat i) (n - 2)) as [Hbody|Htrail].
  - rewrite !cell_insert_ne in Hbad by lia. rewrite <- Hok in Hbad.
    rewrite take_insert_lt in Hbad by lia.
    rewrite <- !crc16_bytes_reference in Hbad
      by (try apply bytes_insert; try apply bytes_take; done).
    eapply crc16_bytes_one_byte; [| | | |exact Hbad];
      [by apply bytes_take|done| |done].
    by rewrite lookup_take_lt by lia.
  - rewrite take_insert_ge in Hbad by lia. rewrite Hok in Hbad.
    assert (is_u8 a) by (by eapply Forall_lookup_1).
    destruct (Z.eq_dec (Z.of_nat i) (n - 2)) as [Hlo|Hhi].
    + rewrite (cell_insert_ne _ _ (n - 1)) in Hbad by lia.
      rewrite <- Hlo in Hbad.
      rewrite (cell_lookup request i a), (cell_lookup (<[i:=b]> request) i b) in Hbad;
        [lia| |done].
      apply list_lookup_insert_eq. by eapply lookup_lt_Some.
    + assert (Z.of_nat i = n - 1) as Hlast by lia.
      rewrite (cell_insert_ne _ _ (n - 2)) in Hbad by lia.
      rewrite <- Hlast in Hbad.
      rewrite (cell_lookup request i a), (cell_lookup (<[i:=b]> request) i b) in Hbad;
        [lia| |done].
      apply list_lookup_insert_eq. by eapply lookup_lt_Some.
Qed.

(** X4. A frame with one corrupted byte is never answered.  Take any frame
    with a valid checksum and change any one of its bytes, checksum bytes
    included: [modbus_process_request] drops the result, transmitting
    nothing and leaving the data store alone. *)
Theorem corrupted_frame_dropped r request n i a b w :
  readable request n -> bytes request -> is_u8 b ->
  checksum_ok request n ->
  Z.of_nat i < n -> request !! i = Some a -> a <> b ->
  exists w',
    modbus_process_request (r, <[i := b]> request) n w = Ok tt w'
    /\ uart_tx w' = uart_tx w /\ banks w' = banks w.
Proof.
  intros Hr Hreq Hb Hok Hi Ha Hne.
  assert (readable (<[i := b]> request) n) as Hr'
    by (unfold readable in *; by rewrite length_insert).
  destruct (process_outcome r _ n Hr' w) as (w' & Hrun & Hbk & _ & Htx).
  exists w'. split; [done|]. split; [|done].
  rewrite Htx. unfold replies.
  destruct (Z.leb_spec 5 n) as [Hn|Hn]; [|apply app_nil_r].
  destruct (crc_matches (<[i := b]> request) n) eqn:Hm; [|apply app_nil_r].
  apply crc_matches_checksum_ok in Hm; [|by apply bytes_insert].
  by destruct (checksum_ok_one_byte request n i a b).
Qed.

Lemma corrupted_frame_dropped_witness :
  exists w',
    modbus_process_request
      (RxBuffer, <[1%nat := 0x08]> [0x01; 0x07; 0x00; 0x22; 0x30; 0x00]) 5 power_on
    = Ok tt w'
    /\ uart_tx w' = uart_tx power_on /\ banks w' = banks power_on.
Proof.
  apply (corrupted_frame_dropped RxBuffer
           [0x01; 0x07; 0x00; 0x22; 0x30; 0x00] 5 1 0x07 0x08 power_on).
  - unfold readable, is_u16. simpl. lia.
  - reflexivity.
  - unfold is_u8. lia.
  - reflexivity.
  - lia.
  - reflexivity.
  - lia.
Defined.

Lemma replies_take request1 request2 n :
  take (Z.to_nat n) request1 = take (Z.to_nat n) request2 ->
  replies request1 n = replies request2 n
  /\ (5 <= n -> cell request1 0 = cell request2 0 /\ cell request1 1 = cell request2 1).
Proof.
  intros Heq. unfold replies.
  destruct (Z.leb_spec 5 n) as [Hn|Hn]; [|split; [done|lia]].
  assert (forall i, 0 <= i < n -> cell request1 i = cell request2 i) as Hcell.
  { intros i Hi. by rewrite <- (cell_take request1 n i), <- (cell_take request2 n i), Heq. }
  assert (crc_matches request1 n = crc_matches request2 n) as ->.
  { unfold crc_matches. rewrite !Hcell by lia. do 2 f_equal.
    replace (Z.to_nat (n - 2)) with (Z.to_nat (n - 2) `min` Z.to_nat n)%nat by lia.
    by rewrite <- !take_take, Heq. }
  rewrite !(Hcell 0), !(Hcell 1) by lia. by repeat split.
Qed.

(** X8. Only the frame counts.  Two calls whose arrays agree on the
    first [request_length] cells transmit the same and leave the same data
    store, whatever the cells behind the frame hold, cell 5 behind a frame
    of five bytes included. *)
Theorem process_request_frame_only r request1 request2 n w :
  readable request1 n -> readable request2 n ->
  take (Z.to_nat n) request1 = take (Z.to_nat n) request2 ->
  exists w1 w2,
    modbus_process_request (r, request1) n w = Ok tt w1
    /\ modbus_process_request (r, request2) n w = Ok tt w2
    /\ uart_tx w1 = uart_tx w2 /\ banks w1 = banks w2.
Proof.
  intros H1 H2 Heq.
  destruct (process_outcome r request1 n H1 w) as (w1 & Hrun1 & Hb1 & _ & Htx1).
  destruct (process_outcome r request2 n H2 w) as (w2 & Hrun2 & Hb2 & _ & Htx2).
  exists w1, w2. split; [done|]. split; [done|]. split; [|congruence].
  destruct (replies_take request1 request2 n Heq) as [Hrep Hcells].
  rewrite Htx1, Htx2, Hrep. f_equal.
  destruct (replies request2 n) eqn:Hr; [|done].
  unfold replies in Hr. destruct (Z.leb_spec 5 n) as [Hn|]; [|done].
  destruct (Hcells Hn) as [-> ->]. done.
Qed.

Lemma process_request_frame_only_witness :
  exists w1 w2,
    modbus_process_request (RxBuffer, [0x01; 0x07; 0x00; 0x22; 0x30; 0x00]) 5 power_on
    = Ok tt w1
    /\ modbus_process_request (RxBuffer, [0x01; 0x07; 0x00; 0x22; 0x30; 0xFF; 0xEE]) 5 power_on
       = Ok tt w2
    /\ uart_tx w1 = uart_tx w2 /\ banks w1 = banks w2.
Proof.
  apply (process_request_frame_only RxBuffer
           [0x01; 0x07; 0x00; 0x22; 0x30; 0x00]
           [0x01; 0x07; 0x00; 0x22; 0x30; 0xFF; 0xEE] 5 power_on).
  - unfold readable, is_u16. simpl. lia.
  - unfold readable, is_u16. simpl. lia.
  - reflexivity.
Defined.

(** X9. When a call answers.  A call with a good pointer to bytes
    returns, leaves the data store and the statics of [modbus_poll] as they
    are, and transmits exactly when the frame has at least 5 bytes, a valid
    checksum, the station address 1 and a function code for which the
    [switch] has no [case]; it then transmits the one exception frame of
    the [default] branch and nothing else. *)
Theorem process_request_answers_iff r request n w :
  readable request n -> bytes request ->
  exists w',
    modbus_process_request (r, request) n w = Ok tt w'
    /\ banks w' = banks w /\ poll w' = poll w
    /\ (5 <= n /\ checksum_ok request n /\ cell request 0 = 0x01
        /\ has_case (cell request 1) = false ->
        uart_tx w' = uart_tx w
                     ++ [exception_frame 0x01 (cell request 1) ERROR_ILLEGAL_FUNCTION])
    /\ (~ (5 <= n /\ checksum_ok request n /\ cell request 0 = 0x01
           /\ has_case (cell request 1) = false) ->
        uart_tx w' = uart_tx w).
Proof.
  intros Hr Hb.
  destruct (process_outcome r request n Hr w) as (w' & Hrun & Hbk & Hp & Htx).
  exists w'. split; [done|]. split; [done|]. split; [done|].
  rewrite Htx. unfold replies.
  pose proof (crc_matches_checksum_ok request n Hb) as Hcrc.
  split.
  - intros (Hn & Hok & Haddr & Hcase).
    destruct (Z.leb_spec 5 n); [|lia].
    apply Hcrc in Hok. by rewrite Hok, Haddr, Hcase.
  - intros Hnot.
    destruct (Z.leb_spec 5 n); [|apply app_nil_r].
    destruct (crc_matches request n) eqn:Hm; [|apply app_nil_r].
    destruct (Z.eqb_spec (cell request 0) 1); [|apply app_nil_r].
    destruct (has_case (cell request 1)) eqn:Hcase; [apply app_nil_r|].
    destruct Hnot. repeat split; try done. by apply Hcrc.
Qed.

Lemma process_request_answers_iff_witness :
  exists w',
    modbus_process_request (RxBuffer, [0x01; 0x07; 0x00; 0x22; 0x30; 0x00]) 5 power_on
    = Ok tt w'
    /\ banks w' = banks power_on /\ poll w' = poll power_on
    /\ (5 <= 5 /\ checksum_ok [0x01; 0x07; 0x00; 0x22; 0x30; 0x00] 5
        /\ cell [0x01; 0x07; 0x00; 0x22; 0x30; 0x00] 0 = 0x01
        /\ has_case (cell [0x01; 0x07; 0x00; 0x22; 0x30; 0x00] 1) = false ->
        uart_tx w' = uart_tx power_on
                     ++ [exception_frame 0x01 (cell [0x01; 0x07; 0x00; 0x22; 0x30; 0x00] 1)
                                         ERROR_ILLEGAL_FUNCTION])
    /\ (~ (5 <= 5 /\ checksum_ok [0x01; 0x07; 0x00; 0x22; 0x30; 0x00] 5
           /\ cell [0x01; 0x07; 0x00; 0x22; 0x30; 0x00] 0 = 0x01
           /\ has_case (cell [0x01; 0x07; 0x00; 0x22; 0x30; 0x00] 1) = false) ->
        uart_tx w' = uart_tx power_on).
Proof.
  apply (process_request_answers_iff RxBuffer
           [0x01; 0x07; 0x00; 0x22; 0x30; 0x00] 5 power_on).
  - unfold readable, is_u16. simpl. lia.
  - reflexivity.
Defined.

(** The function code of an exception frame has its top bit set. *)
Lemma exception_code_range fc : 0x80 <= u8 (Z.lor fc 0x80) < 0x100.
Proof.
  pose proof (is_u8_u8 (Z.lor fc 128)) as Hu. unfold is_u8 in Hu.
  split; [|lia].
  destruct (Z.lt_ge_cases (u8 (Z.lor fc 128)) 128) as [Hlt|]; [|done].
  assert (Z.testbit (u8 (Z.lor fc 128)) 7 = false) as Hbit
    by (apply (high_bits_false 7); lia).
  unfold u8 in Hbit. change 256 with (2 ^ 8) in Hbit.
  rewrite Z.mod_pow2_bits_low, Z.lor_spec in Hbit by lia.
  change (Z.testbit 128 7) with true in Hbit. by rewrite orb_true_r in Hbit.
Qed.

Lemma has_case_exception_code fc : has_case (u8 (Z.lor fc 0x80)) = false.
Proof.
  pose proof (exception_code_range fc) as Hr. unfold has_case.
  unfold FC_READ_COILS, FC_READ_HOLDING_REGS, FC_WRITE_SINGLE_COIL, FC_WRITE_SINGLE_REG.
  repeat match goal with |- context [?x =? ?y] =>
    destruct (Z.eqb_spec x y); [lia|] end.
  done.
Qed.

Lemma exception_code_again fc : u8 (Z.lor (u8 (Z.lor fc 0x80)) 0x80) = u8 (Z.lor fc 0x80).
Proof.
  unfold u8. change 256 with (2 ^ 8). rewrite <- !Z.land_ones by lia.
  apply Z.bits_inj'. intros m Hm.
  rewrite !Z.land_spec, !Z.lor_spec, !Z.land_spec, !Z.lor_spec.
  by destruct (Z.testbit fc m), (Z.testbit 128 m), (Z.testbit (Z.ones 8) m).
Qed.

(** X10. A frame built the way the reply is built is accepted.  Put the
    checksum of any body of at least three bytes behind it, low byte first
    as lines 110-112 do: the check of line 70 passes, and with station
    address 1 and a function code without [case] the frame is answered with
    the exception frame for that code. *)
Theorem frame_with_appended_crc_answered r body tail fc w :
  let crc := crc16_bytes body in
  let request := body ++ [u8 (Z.land crc 0xFF); u8 (Z.shiftr crc 8)] ++ tail in
  let n := Z.of_nat (length body) + 2 in
  readable request n ->
  (3 <= length body)%nat ->
  body !! 0%nat = Some 0x01 -> body !! 1%nat = Some fc -> has_case fc = false ->
  exists w',
    modbus_process_request (r, request) n w = Ok tt w'
    /\ uart_tx w' = uart_tx w ++ [exception_frame 0x01 fc ERROR_ILLEGAL_FUNCTION].
Proof.
  intros crc request n Hr Hlen Haddr Hfc Hcase.
  destruct (process_outcome r request n Hr w) as (w' & Hrun & _ & _ & Htx).
  exists w'. split; [done|]. rewrite Htx. unfold replies.
  subst request n crc. rewrite crc_matches_appended.
  destruct (Z.leb_spec 5 (Z.of_nat (length body) + 2)); [|lia].
  rewrite (cell_app_l body _ 0), (cell_app_l body _ 1) by lia.
  assert (cell body 0 = 1) as -> by apply (cell_lookup body 0%nat 1 Haddr).
  assert (cell body 1 = fc) as -> by apply (cell_lookup body 1%nat fc Hfc).
  by rewrite Hcase.
Qed.

Lemma frame_with_appended_crc_answered_witness :
  exists w',
    modbus_process_request
      (RxBuffer,
       [0x01; 0x07; 0x00]
       ++ [u8 (Z.land (crc16_bytes [0x01; 0x07; 0x00]) 0xFF);
           u8 (Z.shiftr (crc16_bytes [0x01; 0x07; 0x00]) 8)] ++ [0x00])
      (Z.of_nat (length [0x01; 0x07; 0x00]) + 2) power_on
    = Ok tt w'
    /\ uart_tx w' = uart_tx power_on ++ [exception_frame 0x01 0x07 ERROR_ILLEGAL_FUNCTION].
Proof.
  apply (frame_with_appended_crc_answered RxBuffer [0x01; 0x07; 0x00] [0x00] 0x07 power_on).
  - unfold readable, is_u16. simpl. lia.
  - simpl. lia.
  - reflexivity.
  - reflexivity.
  - reflexivity.
Defined.

(** X11. The reply is its own request.  The exception frame that the
    [default] branch transmits is itself a frame that
    [modbus_process_request] accepts, and the answer to it is the same five
    bytes once more: on a line that echoes, the slave answers itself. *)
Theorem exception_reply_answered_with_itself r fc tail w :
  let reply := exception_frame 0x01 fc ERROR_ILLEGAL_FUNCTION in
  readable (reply ++ tail) 5 ->
  exists w',
    modbus_process_request (r, reply ++ tail) 5 w = Ok tt w'
    /\ uart_tx w' = uart_tx w ++ [reply].
Proof.
  intros reply Hr.
  destruct (process_outcome r (reply ++ tail) 5 Hr w) as (w' & Hrun & _ & _ & Htx).
  exists w'. split; [done|]. rewrite Htx. unfold replies.
  pose proof (crc_matches_appended
                [0x01; u8 (Z.lor fc 0x80); ERROR_ILLEGAL_FUNCTION] tail) as Hm.
  cbv zeta in Hm. rewrite app_assoc in Hm.
  change (crc_matches (reply ++ tail) 5 = true) in Hm. rewrite Hm.
  change (cell (reply ++ tail) 0) with 1.
  change (cell (reply ++ tail) 1) with (u8 (Z.lor fc 0x80)).
  rewrite has_case_exception_code. simpl.
  unfold reply, exception_frame. by rewrite exception_code_again.
Qed.

Lemma exception_reply_answered_with_itself_witness :
  exists w',
    modbus_process_request
      (RxBuffer, exception_frame 0x01 0x07 ERROR_ILLEGAL_FUNCTION ++ [0x00]) 5 power_on
    = Ok tt w'
    /\ uart_tx w'
       = uart_tx power_on ++ [exception_frame 0x01 0x07 ERROR_ILLEGAL_FUNCTION].
Proof.
  apply (exception_reply_answered_with_itself RxBuffer 0x07 [0x00] power_on).
  unfold readable, is_u16. simpl. lia.
Defined.

(** The call of [modbus_poll] once the loop has set the flag. *)
Lemma modbus_poll_after_loop incoming w w1 :
  modbus_poll_loop incoming w = Ok tt w1 ->
  rx_invariant w1 -> frame_received (poll w1) = true ->
  exists w',
    modbus_poll incoming w = Ok tt w'
    /\ poll w' = Statics (rx_buffer (poll w1)) 0 false
    /\ banks w' = banks w1
    /\ frames_handed (trace w')
       = frames_handed (trace w1)
         ++ [(rx_length (poll w1),
              take (Z.to_nat (rx_length (poll w1))) (rx_buffer (poll w1)))].
Proof.
  intros Hrun1 Hw1 Hfr. unfold modbus_poll.
  erewrite bind_Ok by exact Hrun1.
  erewrite bind_Ok by reflexivity. rewrite Hfr.
  destruct (process_rx_handed w1 Hw1) as (w2 & Hrun2 & Hp2 & Hb2 & Hh2 & _).
  erewrite bind_Ok by exact Hrun2.
  eexists. split; [reflexivity|]. simpl. by rewrite Hp2.
Qed.

(** X5. Five bytes and more make a frame.  Between calls at most four
    bytes are pending; when a call finds so many bytes on the UART that
    the count reaches 5 to 255, the pending bytes followed by the delivered
    ones are handed to [modbus_process_request] as one frame of exactly
    that length, the data store stays as it is, and the buffer is empty and
    the flag clear again when the call returns. *)
Theorem modbus_poll_hands_over incoming w :
  pending_invariant w ->
  let m := rx_length (poll w) in
  let k := Z.of_nat (length incoming) in
  5 <= m + k <= 255 ->
  exists w',
    modbus_poll incoming w = Ok tt w'
    /\ frames_handed (trace w')
       = frames_handed (trace w)
         ++ [(m + k, take (Z.to_nat m) (rx_buffer (poll w)) ++ incoming)]
    /\ rx_length (poll w') = 0 /\ frame_received (poll w') = false
    /\ banks w' = banks w.
Proof.
  intros Hw m k Hfit. subst m k.
  pose proof (pending_loop_invariant w Hw) as Hloop.
  destruct Hw as ([Hlen Hn] & Hfr & Hm).
  pose proof (modbus_poll_loop_eq incoming w Hloop ltac:(lia)) as Hrun1.
  cbv zeta in Hrun1.
  set (m := rx_length (poll w)) in *. set (k := Z.of_nat (length incoming)) in *.
  destruct (Z.leb_spec 256 (m + k)); [lia|].
  destruct (Z.ltb_spec 4 (m + k)); [|lia]. rewrite orb_true_r in Hrun1.
  edestruct (modbus_poll_after_loop incoming w) as (w' & Hrun & Hp & Hb & Hh);
    [exact Hrun1| |reflexivity|].
  { split; simpl; [|lia].
    rewrite !length_app, length_take, length_drop. lia. }
  exists w'. split; [done|]. rewrite Hp. split; [|by repeat split].
  rewrite Hh. cbn [trace logs with_poll poll rx_length rx_buffer].
  rewrite frames_handed_app, frames_handed_poke, app_nil_r. do 3 f_equal.
  rewrite app_assoc, take_app_length'; [done|].
  rewrite length_app, length_take. lia.
Qed.

Lemma modbus_poll_hands_over_witness :
  exists w',
    modbus_poll [0x01; 0x07; 0x00; 0x22; 0x30] power_on = Ok tt w'
    /\ frames_handed (trace w')
       = frames_handed (trace power_on)
         ++ [(0 + 5, take (Z.to_nat 0) (rx_buffer (poll power_on))
                     ++ [0x01; 0x07; 0x00; 0x22; 0x30])]
    /\ rx_length (poll w') = 0 /\ frame_received (poll w') = false
    /\ banks w' = banks power_on.
Proof.
  apply (modbus_poll_hands_over [0x01; 0x07; 0x00; 0x22; 0x30] power_on).
  - unfold pending_invariant, rx_invariant. simpl. repeat split; lia.
  - simpl. lia.
Defined.

(** X6. Fewer than five bytes make no frame.  When the pending and the
    delivered bytes together are at most four, the call hands nothing
    over, transmits nothing and leaves the data store alone; the delivered
    bytes are kept behind the pending ones for the next call, silence on
    the line or not. *)
Theorem modbus_poll_keeps_short incoming w :
  pending_invariant w ->
  let m := rx_length (poll w) in
  let k := Z.of_nat (length incoming) in
  m + k <= 4 ->
  exists w',
    modbus_poll incoming w = Ok tt w'
    /\ pending_invariant w'
    /\ rx_length (poll w') = m + k
    /\ take (Z.to_nat (m + k)) (rx_buffer (poll w'))
       = take (Z.to_nat m) (rx_buffer (poll w)) ++ incoming
    /\ frames_handed (trace w') = frames_handed (trace w)
    /\ uart_tx w' = uart_tx w /\ banks w' = banks w.
Proof.
  intros Hw m k Hfit. subst m k.
  pose proof (pending_loop_invariant w Hw) as Hloop.
  destruct Hw as ([Hlen Hn] & Hfr & Hm).
  pose proof (modbus_poll_loop_eq incoming w Hloop ltac:(lia)) as Hrun1.
  cbv zeta in Hrun1.
  set (m := rx_length (poll w)) in *. set (k := Z.of_nat (length incoming)) in *.
  destruct (Z.leb_spec 256 (m + k)); [lia|].
  destruct (Z.ltb_spec 4 (m + k)); [lia|]. rewrite Hfr in Hrun1. simpl in Hrun1.
  unfold modbus_poll. erewrite bind_Ok by exact Hrun1.
  erewrite bind_Ok by reflexivity. simpl.
  eexists. split; [reflexivity|].
  assert (length (take (Z.to_nat m) (rx_buffer (poll w)) ++ incoming) = Z.to_nat (m + k))
    as Hpre by (rewrite length_app, length_take; lia).
  split; [|split; [done|split; [|split; [|done]]]].
  - unfold pending_invariant, rx_invariant. simpl.
    rewrite !length_app, length_take, length_drop. repeat split; lia.
  - simpl. rewrite app_assoc. by apply take_app_length'.
  - simpl. by rewrite frames_handed_app, frames_handed_poke, app_nil_r.
Qed.

Lemma modbus_poll_keeps_short_witness :
  exists w',
    modbus_poll [0x01; 0x03] power_on = Ok tt w'
    /\ pending_invariant w'
    /\ rx_length (poll w') = 0 + 2
    /\ take (Z.to_nat (0 + 2)) (rx_buffer (poll w'))
       = take (Z.to_nat 0) (rx_buffer (poll power_on)) ++ [0x01; 0x03]
    /\ frames_handed (trace w') = frames_handed (trace power_on)
    /\ uart_tx w' = uart_tx power_on /\ banks w' = banks power_on.
Proof.
  apply (modbus_poll_keeps_short [0x01; 0x03] power_on).
  - unfold pending_invariant, rx_invariant. simpl. repeat split; lia.
  - simpl. lia.
Defined.

(** X7. A burst that fills the buffer is lost.  When the pending bytes
    and the first part of a delivery are exactly 256 bytes, line 148 sets
    the count back to 0 with the flag still set: what is handed over is
    only what came after those 256 bytes, even if that is nothing or fewer
    than five bytes. *)
Theorem modbus_poll_overflow first rest w :
  pending_invariant w ->
  rx_length (poll w) + Z.of_nat (length first) = 256 ->
  Z.of_nat (length rest) <= 255 ->
  exists w',
    modbus_poll (first ++ rest) w = Ok tt w'
    /\ frames_handed (trace w')
       = frames_handed (trace w) ++ [(Z.of_nat (length rest), rest)]
    /\ rx_length (poll w') = 0 /\ frame_received (poll w') = false.
Proof.
  intros Hw Hfull Hrest.
  pose proof (pending_loop_invariant w Hw) as Hloop.
  destruct Hw as ([Hlen Hn] & Hfr & Hm).
  pose proof (modbus_poll_loop_eq first w Hloop ltac:(lia)) as Hrun1.
  cbv zeta in Hrun1. rewrite Hfull in Hrun1. simpl (256 <=? 256) in Hrun1.
  simpl (4 <? 256) in Hrun1. rewrite orb_true_r in Hrun1. cbv iota in Hrun1.
  set (w1 := with_poll _ _) in Hrun1.
  assert (rx_invariant w1) as Hw1.
  { split; simpl; [|lia]. rewrite !length_app, length_take, length_drop. lia. }
  pose proof (modbus_poll_loop_eq rest w1 (conj Hw1 (or_introl eq_refl))
                ltac:(simpl; lia)) as Hrun2.
  cbv zeta in Hrun2. change (rx_length (poll w1)) with 0 in Hrun2.
  rewrite !Z.add_0_l in Hrun2.
  destruct (Z.leb_spec 256 (Z.of_nat (length rest))); [lia|].
  change (frame_received (poll w1)) with true in Hrun2. simpl (true || _) in Hrun2.
  change (take (Z.to_nat 0) _) with (@nil Z) in Hrun2. rewrite app_nil_l in Hrun2.
  edestruct (modbus_poll_after_loop (first ++ rest) w) as (w' & Hrun & Hp & _ & Hh).
  { rewrite modbus_poll_loop_app. erewrite bind_Ok by exact Hrun1. exact Hrun2. }
  { split; simpl; [|lia].
    rewrite length_app, length_drop, !length_app, length_take, length_drop. lia. }
  { reflexivity. }
  exists w'. split; [done|]. rewrite Hp. split; [|done].
  rewrite Hh. cbn [trace logs with_poll poll rx_length rx_buffer].
  rewrite frames_handed_app, frames_handed_poke, app_nil_r.
  replace (frames_handed (trace w1)) with (frames_handed (trace w))
    by (subst w1; simpl; by rewrite frames_handed_app, frames_handed_poke, app_nil_r).
  do 3 f_equal. rewrite Nat2Z.id. apply take_app_length.
Qed.

Lemma modbus_poll_overflow_witness :
  exists w',
    modbus_poll (replicate 256 0xAA ++ [0x01; 0x07; 0x00; 0x22; 0x30]) power_on = Ok tt w'
    /\ frames_handed (trace w')
       = frames_handed (trace power_on)
         ++ [(Z.of_nat (length [0x01; 0x07; 0x00; 0x22; 0x30]),
              [0x01; 0x07; 0x00; 0x22; 0x30])]
    /\ rx_length (poll w') = 0 /\ frame_received (poll w') = false.
Proof.
  apply (modbus_poll_overflow (replicate 256 0xAA) [0x01; 0x07; 0x00; 0x22; 0x30] power_on).
  - unfold pending_invariant, rx_invariant. simpl. repeat split; lia.
  - reflexivity.
  - simpl. lia.
Defined.

Lemma pending_invariant_power_on : pending_invariant power_on.
Proof. split; [apply rx_invariant_power_on|]. simpl. split; [done|lia]. Qed.

(** X12. Between calls at most four bytes wait.  If a call of
    [modbus_poll] starts with the flag clear and at most four bytes in the
    buffer, as the first call after power-on does, then whatever the UART
    delivers, and however much, the call returns and leaves the flag clear
    and at most four bytes in the buffer. *)
Theorem modbus_poll_keeps_pending incoming w :
  pending_invariant w ->
  exists w', modbus_poll incoming w = Ok tt w' /\ pending_invariant w'.
Proof.
  intros Hw.
  destruct (modbus_poll_step incoming w Hw) as (w' & fs & Hrun & Hw' & _).
  by exists w'.
Qed.

Lemma modbus_poll_keeps_pending_witness :
  exists w', modbus_poll (replicate 300 0x55) power_on = Ok tt w'
             /\ pending_invariant w'.
Proof.
  apply (modbus_poll_keeps_pending (replicate 300 0x55) power_on).
  unfold pending_invariant, rx_invariant. simpl. repeat split; lia.
Defined.

Lemma is_exception_reply_shape f :
  is_exception_reply f ->
  exists fc lo hi,
    f = [0x01; fc; ERROR_ILLEGAL_FUNCTION; lo; hi]
    /\ 0x80 <= fc < 0x100 /\ crc_matches f 5 = true.
Proof.
  intros (fc & _ & ->). eexists _, _, _. split; [reflexivity|].
  split; [apply exception_code_range|].
  pose proof (crc_matches_appended
                [0x01; u8 (Z.lor fc 0x80); ERROR_ILLEGAL_FUNCTION] []) as Hm.
  exact Hm.
Qed.

(** X13. Whatever the line delivers, only exception frames go out.
    Through any number of calls of [modbus_poll] with any deliveries, the
    data store is never changed, at most one frame is transmitted per call,
    and every transmitted frame is five bytes: station address 1, a
    function code with the top bit set, the exception code IllegalFunction,
    and a checksum that passes the check of line 70. *)
Theorem main_loop_only_exception_replies deliveries w :
  pending_invariant w ->
  exists w' fs,
    main_loop deliveries w = Ok tt w'
    /\ banks w' = banks w
    /\ uart_tx w' = uart_tx w ++ fs
    /\ (length fs <= length deliveries)%nat
    /\ Forall (fun f => exists fc lo hi,
                   f = [0x01; fc; ERROR_ILLEGAL_FUNCTION; lo; hi]
                   /\ 0x80 <= fc < 0x100 /\ crc_matches f 5 = true) fs.
Proof.
  intros Hw.
  destruct (main_loop_step deliveries w Hw)
    as (w' & fs & Hrun & _ & Hb & Htx & Hlen & Hfs).
  exists w', fs. split; [done|]. split; [done|]. split; [done|]. split; [done|].
  eapply Forall_impl; [exact Hfs|]. apply is_exception_reply_shape.
Qed.

Lemma main_loop_only_exception_replies_witness :
  exists w' fs,
    main_loop [[0x01; 0x07]; [0x00; 0x22; 0x30]; [0x01; 0x03; 0x00; 0x00; 0x00; 0x01; 0x84; 0x0A]]
              power_on = Ok tt w'
    /\ banks w' = banks power_on
    /\ uart_tx w' = uart_tx power_on ++ fs
    /\ (length fs <= length [[0x01; 0x07]; [0x00; 0x22; 0x30];
                             [0x01; 0x03; 0x00; 0x00; 0x00; 0x01; 0x84; 0x0A]])%nat
    /\ Forall (fun f => exists fc lo hi,
                   f = [0x01; fc; ERROR_ILLEGAL_FUNCTION; lo; hi]
                   /\ 0x80 <= fc < 0x100 /\ crc_matches f 5 = true) fs.
Proof.
  apply (main_loop_only_exception_replies
           [[0x01; 0x07]; [0x00; 0x22; 0x30];
            [0x01; 0x03; 0x00; 0x00; 0x00; 0x01; 0x84; 0x0A]] power_on).
  unfold pending_invariant, rx_invariant. simpl. repeat split; lia.
Defined.

(** X1. [modbus_init] clears the holding registers and nothing else.  On
    the 100-cell bank the call returns without leaving the array; every
    holding register is 0 afterwards, whatever it held before; coils,
    discrete inputs, input registers, the receive buffer with its count and
    flag, and the transmissions so far are untouched. *)
Theorem modbus_init_clears_holding_registers w :
  Z.of_nat (length (holding_registers (banks w))) = HOLDING_REGISTER_COUNT ->
  exists w',
    modbus_init w = Ok tt w'
    /\ holding_registers (banks w') = replicate 100 0
    /\ coils (banks w') = coils (banks w)
    /\ discrete_inputs (banks w') = discrete_inputs (banks w)
    /\ input_registers (banks w') = input_registers (banks w)
    /\ poll w' = poll w /\ uart_tx w' = uart_tx w.
Proof.
  intros Hlen. unfold HOLDING_REGISTER_COUNT in Hlen.
  apply (modbus_init_loop_run 100 [] (holding_registers (banks w)) w); [done|lia].
Qed.

Lemma modbus_init_clears_holding_registers_witness :
  let w := with_banks (Store (replicate 13 0xFF) (replicate 13 0x0F)
                             (Z.of_nat <$> seq 1000 100) (replicate 100 7))
                      power_on in
  exists w',
    modbus_init w = Ok tt w'
    /\ holding_registers (banks w') = replicate 100 0
    /\ coils (banks w') = coils (banks w)
    /\ discrete_inputs (banks w') = discrete_inputs (banks w)
    /\ input_registers (banks w') = input_registers (banks w)
    /\ poll w' = poll w /\ uart_tx w' = uart_tx w.
Proof.
  apply (modbus_init_clears_holding_registers
           (with_banks (Store (replicate 13 0xFF) (replicate 13 0x0F)
                              (Z.of_nat <$> seq 1000 100) (replicate 100 7))
                       power_on)).
  reflexivity.
Defined.
